(** * vite-plugin-lucky: a shallow embedding of [src/index.ts]

    The plugin reads a shared JSON file, merges it over fixed defaults and
    turns the result into a Vite configuration; a second hook removes five
    known sub-directories of the output directory before every build.

    Layout of this development:
    - [Js]: the JavaScript values the plugin handles (the result of
      [JSON.parse]), [ToString], truthiness, property lookup and
      [Object.assign];
    - [RegExp]: the regular expressions of the source and [RegExp.test];
    - [Path]: [join] and [resolve] of Node's POSIX [path] module;
    - [Fs]: a directory tree with [existsSync], [readFileSync],
      [readdirSync] and [rmSync];
    - [Runtime]: what the plugin takes from its host process ([JSON.parse],
      [new URL], [process.cwd()], [process.env]);
    - the plugin itself, function by function, with the names of the source;
    - the properties. *)

From Stdlib Require Import ZArith Ascii String List Bool Lia.
From stdpp Require Import base option list gmap strings pretty.

Set Warnings "-register-all".

(** ** Errors and results

    Every exception the plugin can raise comes from the runtime: a failing
    file-system call (reported by its POSIX code), [JSON.parse]
    ([SyntaxError]), or a [TypeError] ([new URL] on an unparsable string, a
    [path] function on a non-string, a method call on a value that lacks
    the method). *)

Inductive error : Set :=
  | ENOENT
  | ENOTDIR
  | EISDIR
  | EACCES
  | SyntaxError
  | TypeError.

Inductive result (A : Type) : Type :=
  | Ok (a : A)
  | Err (e : error).
Arguments Ok {A} a.
Arguments Err {A} e.

#[global] Instance result_ret : MRet result := fun A a => Ok a.
#[global] Instance result_bind : MBind result := fun A B f r =>
  match r with
  | Ok a => f a
  | Err e => Err e
  end.

Definition is_ok {A} (r : result A) : bool :=
  match r with Ok _ => true | Err _ => false end.

(** Characters of a string, and back. *)
Abbreviation chars := list_ascii_of_string.
Abbreviation str := string_of_list_ascii.

(** [s] ends with [suf]. *)
Definition ends_with (suf s : string) : Prop := ∃ p, s = p +:+ suf.

(** [s] contains [w] as a substring. *)
Definition contains (w s : string) : Prop := ∃ p q, s = p +:+ w +:+ q.

(** Every character of [s] satisfies [f]. *)
Fixpoint all_chars (f : ascii → bool) (s : string) : bool :=
  match s with
  | EmptyString => true
  | String c t => f c && all_chars f t
  end.

(** [s.split(sep)] for a one-character separator. *)
Fixpoint split_on (sep : ascii) (s : string) : list string :=
  match s with
  | EmptyString => [EmptyString]
  | String c t =>
      if Ascii.eqb c sep then EmptyString :: split_on sep t
      else
        match split_on sep t with
        | w :: ws => String c w :: ws
        | [] => [String c EmptyString]
        end
  end.

(** ** JavaScript values *)
Module Js.

(** A value produced by [JSON.parse]. Numbers are the integer-valued ones
    that print in plain decimal (below 10^21 in magnitude), which is what a
    port is; an object is the finite map of its own properties. *)
Inductive json : Type :=
  | JNull
  | JBool (b : bool)
  | JNum (z : Z)
  | JStr (s : string)
  | JArr (l : list json)
  | JObj (m : gmap string json).

(** A JavaScript value as the plugin sees it: [None] is [undefined]. *)
Definition jsval : Type := option json.

(** [Array.prototype.join] with separator [","]. *)
Fixpoint join_comma (l : list string) : string :=
  match l with
  | [] => ""
  | [s] => s
  | s :: t => s +:+ "," +:+ join_comma t
  end.

(** [ToString] on a parsed value, as a template literal applies it. An
    array prints its elements separated by commas, [null] elements as the
    empty string; a plain object prints as ["[object Object]"]. *)
Fixpoint ToString (v : json) : string :=
  match v with
  | JNull => "null"
  | JBool true => "true"
  | JBool false => "false"
  | JNum z => pretty z
  | JStr s => s
  | JArr l =>
      join_comma
        (List.map (fun e => match e with JNull => "" | _ => ToString e end) l)
  | JObj _ => "[object Object]"
  end.

Definition ToString_val (v : jsval) : string :=
  match v with
  | None => "undefined"
  | Some j => ToString j
  end.

(** [ToBoolean]. *)
Definition truthy (v : jsval) : bool :=
  match v with
  | None => false
  | Some JNull => false
  | Some (JBool b) => b
  | Some (JNum z) => negb (Z.eqb z 0)
  | Some (JStr s) => negb (String.eqb s "")
  | Some (JArr _) => true
  | Some (JObj _) => true
  end.

(** [typeof v === 'boolean'] *)
Definition is_boolean (v : jsval) : bool :=
  match v with
  | Some (JBool _) => true
  | _ => false
  end.

(** An object under construction: its own properties and its prototype.
    [proto = None] is the default [Object.prototype]; [Some v] is a
    prototype installed by an assignment to [__proto__]. *)
Record object : Type := {
  own : gmap string json;
  proto : option json;
}.

(** [o[k]] for the keys the plugin reads ([root], [entry], [outDir],
    [aliases], [https], [host], [port], [origin]): the own property if
    there is one, else the property of the prototype. None of these keys
    is defined on [Object.prototype] or [Array.prototype], so only a
    prototype that is a parsed object can supply one. *)
Definition Get (o : object) (k : string) : jsval :=
  match own o !! k with
  | Some v => Some v
  | None =>
      match proto o with
      | Some (JObj m) => m !! k
      | _ => None
      end
  end.

(** [target[k] = v] on an ordinary object whose prototype chain ends in
    [Object.prototype]: the key [__proto__] reaches the inherited setter,
    which installs an object or [null] as the prototype and ignores any
    other value; every other key becomes an own property. *)
Definition Set_ (o : object) (k : string) (v : json) : object :=
  if String.eqb k "__proto__" then
    match v with
    | JNull | JArr _ | JObj _ => {| own := own o; proto := Some v |}
    | _ => o
    end
  else {| own := <[k := v]> (own o); proto := proto o |}.

(** The own enumerable properties of an array: its indices. *)
Fixpoint index_props (i : nat) (l : list json) : list (string * json) :=
  match l with
  | [] => []
  | x :: t => (pretty i, x) :: index_props (S i) t
  end.

(** The own enumerable properties of a string: one character per index. *)
Fixpoint char_props (i : nat) (s : string) : list (string * json) :=
  match s with
  | EmptyString => []
  | String c t => (pretty i, JStr (String c EmptyString)) :: char_props (S i) t
  end.

(** The own enumerable properties [Object.assign] copies from a source.
    [null], booleans and numbers have none. *)
Definition own_props (src : json) : list (string * json) :=
  match src with
  | JObj m => map_to_list m
  | JArr l => index_props 0 l
  | JStr s => char_props 0 s
  | JNull | JBool _ | JNum _ => []
  end.

(** [Object.assign(target, src)] *)
Definition Object_assign (target : object) (src : json) : object :=
  foldl (fun o kv => Set_ o kv.1 kv.2) target (own_props src).

End Js.
Import Js.

(** ** Regular expressions

    The fragment the source uses: characters, sequence, alternation,
    [r?] and the end-of-input assertion [$] (no flag is set, so [$] matches
    at the end of the input only). *)
Module RegExp.

Inductive regex : Set :=
  | Eps
  | Chr (c : ascii)
  | Seq (r1 r2 : regex)
  | Alt (r1 r2 : regex)
  | Opt (r : regex)
  | Eos.

(** The regex that matches the characters of [s] literally. *)
Fixpoint lit (s : string) : regex :=
  match s with
  | EmptyString => Eps
  | String c t => Seq (Chr c) (lit t)
  end.

(** All the ways [r] can match at the start of [s]: the remainders left
    after each match. *)
Fixpoint rem (r : regex) (s : list ascii) : list (list ascii) :=
  match r with
  | Eps => [s]
  | Chr c =>
      match s with
      | c' :: t => if Ascii.eqb c c' then [t] else []
      | [] => []
      end
  | Seq r1 r2 => rem r1 s ≫= rem r2
  | Alt r1 r2 => rem r1 s ++ rem r2 s
  | Opt r1 => rem r1 s ++ [s]
  | Eos =>
      match s with
      | [] => [[]]
      | _ :: _ => []
      end
  end.

Definition matches_at (r : regex) (s : list ascii) : bool :=
  match rem r s with
  | [] => false
  | _ :: _ => true
  end.

(** [r.test(s)] without the sticky or global flag: some position of [s],
    the end included, starts a match. *)
Fixpoint search (r : regex) (s : list ascii) : bool :=
  matches_at r s ||
  match s with
  | [] => false
  | _ :: t => search r t
  end.

Definition test (r : regex) (s : string) : bool := search r (chars s).

(** The matches of [r] as a list: each entry is the string a match
    consumes, with [true] when the match also requires the input to end
    there. *)
Fixpoint lang (r : regex) : list (list ascii * bool) :=
  match r with
  | Eps => [([], false)]
  | Chr c => [([c], false)]
  | Seq r1 r2 =>
      '(w1, end1) ← lang r1;
      '(w2, end2) ← lang r2;
      if end1 : bool then
        match w2 with
        | [] => [(w1, true)]
        | _ :: _ => []
        end
      else [(w1 ++ w2, end2)]
  | Alt r1 r2 => lang r1 ++ lang r2
  | Opt r1 => lang r1 ++ [([], false)]
  | Eos => [([], true)]
  end.

End RegExp.
Import RegExp.

(** [/\.(gif|jpe?g|png|webp|avif|svg)$/] *)
Definition re_image : regex :=
  Seq (Chr ".")
    (Seq
       (Alt (lit "gif")
          (Alt (Seq (lit "jp") (Seq (Opt (Chr "e")) (Chr "g")))
             (Alt (lit "png") (Alt (lit "webp") (Alt (lit "avif") (lit "svg"))))))
       Eos).

(** [/\.css$/] *)
Definition re_css : regex := Seq (lit ".css") Eos.

(** [/\.woff2?$/] *)
Definition re_font : regex := Seq (lit ".woff") (Seq (Opt (Chr "2")) Eos).

(** [/test|development/] *)
Definition re_env : regex := Alt (lit "test") (lit "development").

(** ** Asset path policy *)

Record PreRenderedAsset : Type := {
  asset_name : option string;
  asset_source : string;
}.

(** [formatAssetFilePath(dir?, ext = '[extname]')]: an absent and an empty
    [dir] are both falsy. *)
Definition formatAssetFilePath (dir : option string) (ext : option string) : string :=
  let ext := default "[extname]" ext in
  let name := "[name].[hash]" +:+ ext in
  match dir with
  | Some d => if String.eqb d "" then name else d +:+ "/" +:+ name
  | None => name
  end.

(** [determineAssetFilePath({ name = '' })] *)
Definition determineAssetFilePath (asset : PreRenderedAsset) : string :=
  let name := default "" (asset_name asset) in
  if test re_image name then formatAssetFilePath (Some "images") None
  else if test re_css name then formatAssetFilePath (Some "css") None
  else if test re_font name then formatAssetFilePath (Some "fonts") None
  else formatAssetFilePath None None.

(** ** Node's [path] module, POSIX flavour *)
Module Path.

(** [s.split('/')] *)
Definition split_slash (s : string) : list string := split_on "/" s.

(** [segments.join('/')] *)
Fixpoint join_slash (l : list string) : string :=
  match l with
  | [] => ""
  | [s] => s
  | s :: t => s +:+ "/" +:+ join_slash t
  end.

Definition is_absolute (p : string) : bool :=
  match p with
  | String c _ => Ascii.eqb c "/"
  | EmptyString => false
  end.

(** The last character of [p] is a slash. *)
Fixpoint has_trailing_slash (p : string) : bool :=
  match p with
  | EmptyString => false
  | String c EmptyString => Ascii.eqb c "/"
  | String _ t => has_trailing_slash t
  end.

(** One segment of [normalizeString]; [stack] holds the segments kept so
    far, the last one first. Empty segments and ["."] are dropped; [".."]
    removes the last kept segment unless there is none or it is itself
    [".."], in which case it is kept only when the path may climb above
    its root. *)
Definition norm_step (allowAboveRoot : bool) (stack : list string) (seg : string)
    : list string :=
  if String.eqb seg "" || String.eqb seg "." then stack
  else if String.eqb seg ".." then
    match stack with
    | top :: rest =>
        if String.eqb top ".." then
          if allowAboveRoot then ".." :: stack else stack
        else rest
    | [] => if allowAboveRoot then [".."] else []
    end
  else seg :: stack.

(** The segments [normalizeString(path, allowAboveRoot)] keeps, in order. *)
Definition norm_segments (path : string) (allowAboveRoot : bool) : list string :=
  rev (foldl (norm_step allowAboveRoot) [] (split_slash path)).

Definition normalizeString (path : string) (allowAboveRoot : bool) : string :=
  join_slash (norm_segments path allowAboveRoot).

(** [path.normalize] *)
Definition normalize (path : string) : string :=
  if String.eqb path "" then "."
  else
    let isAbsolute := is_absolute path in
    let trailingSeparator := has_trailing_slash path in
    let p := normalizeString path (negb isAbsolute) in
    if String.eqb p "" then
      if isAbsolute then "/" else if trailingSeparator then "./" else "."
    else
      let p := if trailingSeparator then p +:+ "/" else p in
      if isAbsolute then "/" +:+ p else p.

(** [path.join(...args)]: the non-empty arguments, joined by ["/"] and
    normalized. *)
Definition join (args : list string) : string :=
  match List.filter (fun a => negb (String.eqb a "")) args with
  | [] => "."
  | parts => normalize (join_slash parts)
  end.

(** The loop of [path.resolve], from the last argument to the first and
    then the working directory, until an absolute one is met. *)
Fixpoint resolve_loop (args_rev : list string) (resolvedPath : string)
    : string * bool :=
  match args_rev with
  | [] => (resolvedPath, false)
  | p :: rest =>
      if String.eqb p "" then resolve_loop rest resolvedPath
      else
        let resolvedPath := p +:+ "/" +:+ resolvedPath in
        if is_absolute p then (resolvedPath, true)
        else resolve_loop rest resolvedPath
  end.

(** [path.resolve(...args)] in a process whose working directory is [cwd]. *)
Definition resolve (cwd : string) (args : list string) : string :=
  let '(resolvedPath, resolvedAbsolute) := resolve_loop (rev args ++ [cwd]) "" in
  let p := normalizeString resolvedPath (negb resolvedAbsolute) in
  if resolvedAbsolute then "/" +:+ p
  else if String.eqb p "" then "." else p.

(** The segments [resolve(p)] normalizes, up to the trailing empty one:
    those of [p] alone when it is absolute, preceded by those of the
    working directory when it is not. *)
Definition resolve_input (cwd p : string) : list string :=
  if String.eqb p "" then split_slash cwd
  else if is_absolute p then split_slash p
  else split_slash cwd ++ split_slash p.

(** Vocabulary for statements about paths. A segment is a non-empty
    string without a slash other than ["."]; a name is a segment other
    than [".."], that is, what a directory entry can be called. *)
Definition no_slash (s : string) : bool :=
  all_chars (fun c => negb (Ascii.eqb c "/")) s.

Definition is_seg (s : string) : bool :=
  no_slash s && negb (String.eqb s "") && negb (String.eqb s ".").

Definition is_name (s : string) : bool :=
  is_seg s && negb (String.eqb s "..").

(** The absolute path made of the given components. *)
Definition from_components (l : list string) : string := "/" +:+ join_slash l.

(** The components of an absolute path. *)
Definition components (p : string) : list string := norm_segments p false.

End Path.

(** ** The file system

    A tree of directories and regular files. The entries of a directory are
    kept in the order a listing reports them. No links, and no permissions
    beyond the refusal of a deletion (see [Runtime]). *)
Module Fs.

Inductive node : Type :=
  | File (content : string)
  | Dir (entries : list (string * node)).

Definition has_name (s : string) (e : string * node) : bool := String.eqb e.1 s.

Definition child (es : list (string * node)) (s : string) : option node :=
  snd <$> List.find (has_name s) es.

(** The node at the end of a chain of entry names. *)
Fixpoint lookup (n : node) (p : list string) : option node :=
  match p with
  | [] => Some n
  | s :: rest =>
      match n with
      | Dir es =>
          match child es s with
          | Some c => lookup c rest
          | None => None
          end
      | File _ => None
      end
  end.

(** [f] applied to the node of the first entry named [s]. *)
Fixpoint alter_child (s : string) (f : node → node) (es : list (string * node))
    : list (string * node) :=
  match es with
  | [] => []
  | e :: t => if has_name s e then (e.1, f e.2) :: t else e :: alter_child s f t
  end.

(** The tree without the entry at [p] (and all below it). *)
Fixpoint remove (p : list string) (n : node) : node :=
  match p, n with
  | [], _ => n
  | _, File _ => n
  | [s], Dir es => Dir (List.filter (fun e => negb (has_name s e)) es)
  | s :: rest, Dir es => Dir (alter_child s (remove rest) es)
  end.

(** Path resolution as the kernel does it, one component at a time from
    the directory [cur]: every component, the empty one and the dots
    included, needs the place reached so far to be a directory. *)
Fixpoint walk (root : node) (cur : list string) (segs : list string)
    : result (list string) :=
  match segs with
  | [] => Ok cur
  | s :: rest =>
      match lookup root cur with
      | None => Err ENOENT
      | Some (File _) => Err ENOTDIR
      | Some (Dir es) =>
          if String.eqb s "" || String.eqb s "." then walk root cur rest
          else if String.eqb s ".." then walk root (removelast cur) rest
          else
            match child es s with
            | Some _ => walk root (cur ++ [s]) rest
            | None => Err ENOENT
            end
      end
  end.

(** Where the path string [p] leads in a process whose working directory
    is [cwd]. *)
Definition locate (root : node) (cwd : string) (p : string) : result (list string) :=
  if String.eqb p "" then Err ENOENT
  else if Path.is_absolute p then walk root [] (Path.split_slash p)
  else walk root [] (Path.split_slash cwd ++ Path.split_slash p).

Definition existsSync (root : node) (cwd p : string) : bool :=
  is_ok (locate root cwd p).

Definition readFileSync (root : node) (cwd p : string) : result string :=
  loc ← locate root cwd p;
  match lookup root loc with
  | Some (File content) => Ok content
  | Some (Dir _) => Err EISDIR
  | None => Err ENOENT
  end.

Definition readdirSync (root : node) (cwd p : string) : result (list string) :=
  loc ← locate root cwd p;
  match lookup root loc with
  | Some (Dir es) => Ok (es.*1)
  | Some (File _) => Err ENOTDIR
  | None => Err ENOENT
  end.

(** [rmSync(p, { recursive: true, force: true })]: a missing path is not an
    error; the operating system may refuse the deletion ([denied]), and
    always refuses that of the root directory. *)
Definition rmSync (denied : list string → bool) (root : node) (cwd p : string)
    : result node :=
  match locate root cwd p with
  | Ok loc =>
      match loc with
      | [] => Err EACCES
      | _ :: _ => if denied loc then Err EACCES else Ok (remove loc root)
      end
  | Err ENOENT => Ok root
  | Err e => Err e
  end.

End Fs.
Import Fs.

(** ** The host process *)

(** What the plugin reads off a [URL] object. *)
Record URL : Type := {
  hostname : string;
  port : string;
  protocol : string;
}.

(** A fragment of the WHATWG URL parser: [http://host], [http://host:port]
    and the same with [https], where [host] is either a dotted name of
    lower-case labels or a dotted quad of plain decimal octets. On this
    fragment the parser neither rewrites the host nor fails; it drops the
    port when it is the default one of the scheme. [None] means the input
    lies outside the fragment, not that the parser rejects it. *)
Module SimpleUrl.

Definition is_digit (c : ascii) : bool :=
  let n := nat_of_ascii c in (48 <=? n)%nat && (n <=? 57)%nat.

Definition is_lower (c : ascii) : bool :=
  let n := nat_of_ascii c in (97 <=? n)%nat && (n <=? 122)%nat.

Fixpoint strip_prefix (pre s : string) : option string :=
  match pre, s with
  | EmptyString, _ => Some s
  | String a p, String b t => if Ascii.eqb a b then strip_prefix p t else None
  | String _ _, EmptyString => None
  end.

(** The number a string of decimal digits denotes. *)
Fixpoint digits_value (acc : N) (s : string) : N :=
  match s with
  | EmptyString => acc
  | String c t => digits_value (acc * 10 + (N_of_ascii c - 48))%N t
  end.

(** A label that the host parser leaves as it is: lower-case letters,
    digits and hyphens, starting with a letter, not in Punycode. *)
Definition label_ok (l : string) : bool :=
  match l with
  | EmptyString => false
  | String c _ =>
      is_lower c
      && all_chars (fun c => is_lower c || is_digit c || Ascii.eqb c "-") l
      && negb (bool_decide (is_Some (strip_prefix "xn--" l)))
  end.

Definition domain_ok (host : string) : bool :=
  forallb label_ok (split_on "." host).

(** A decimal octet, written without a leading zero. *)
Definition octet_ok (p : string) : bool :=
  match p with
  | EmptyString => false
  | String c t =>
      all_chars is_digit p
      && (negb (Ascii.eqb c "0") || String.eqb t "")
      && (String.length p <=? 3)%nat
      && (digits_value 0 p <=? 255)%N
  end.

Definition ipv4_ok (host : string) : bool :=
  let parts := split_on "." host in
  (length parts =? 4)%nat && forallb octet_ok parts.

Definition host_ok (host : string) : bool := domain_ok host || ipv4_ok host.

(** The [port] property: empty for an absent, empty or default port, else
    the port in decimal. *)
Definition port_of (default_port : N) (digits : string) : option string :=
  if all_chars is_digit digits && (String.length digits <=? 5)%nat then
    let v := digits_value 0 digits in
    if String.eqb digits "" || (v =? default_port)%N then Some ""
    else if (v <=? 65535)%N then Some (pretty v)
    else None
  else None.

Definition authority (proto : string) (default_port : N) (rest : string)
    : option URL :=
  match split_on ":" rest with
  | [host] =>
      if host_ok host
      then Some {| hostname := host; port := ""; protocol := proto |}
      else None
  | [host; digits] =>
      if host_ok host then
        p ← port_of default_port digits;
        Some {| hostname := host; port := p; protocol := proto |}
      else None
  | _ => None
  end.

Definition parse (s : string) : option URL :=
  match strip_prefix "http://" s with
  | Some rest => authority "http:" 80 rest
  | None =>
      match strip_prefix "https://" s with
      | Some rest => authority "https:" 443 rest
      | None => None
      end
  end.

End SimpleUrl.

(** The services of the host process.
    - [JSON_parse text] is [JSON.parse(text)]; [None] is a [SyntaxError].
    - [URL_parse s] is [new URL(s)]; [None] is the [TypeError] of an
      invalid URL. It is only assumed to agree with the WHATWG algorithm on
      the fragment [SimpleUrl] covers.
    - [cwd] is [process.cwd()], an absolute path.
    - [env_LUCKY_ENV] is [process.env['LUCKY_ENV']], absent when unset.
    - [rm_denied loc] tells whether the operating system refuses to delete
      the tree at [loc]. *)
Class Runtime : Type := {
  JSON_parse : string → option json;
  URL_parse : string → option URL;
  URL_parse_simple : ∀ s u, SimpleUrl.parse s = Some u → URL_parse s = Some u;
  cwd : string;
  cwd_absolute : Path.is_absolute cwd = true;
  env_LUCKY_ENV : option string;
  rm_denied : list string → bool;
}.

(** ** The plugin *)

Record Alias : Type := {
  find : string;
  replacement : string;
}.

Record ServerConfig : Type := {
  server_origin : jsval;
  server_host : string;
  server_port : string;
  server_https : bool;
}.

Record OutputOptions : Type := {
  entryFileNames : string;
  chunkFileNames : string;
  assetFileNames : PreRenderedAsset → string;
}.

Record RollupOptions : Type := {
  input : list string;
  output : OutputOptions;
}.

Record BuildOptions : Type := {
  outDir : string;
  sourcemap : bool;
  emptyOutDir : bool;
  manifest : bool;
  rollupOptions : RollupOptions;
}.

Record UserConfig : Type := {
  root : string;
  resolve_alias : list Alias;
  server : ServerConfig;
  build : BuildOptions;
}.

Record Plugin : Type := {
  name : string;
  config : node → result UserConfig;
  buildStart : node → result node;
}.

Record PluginConfig : Type := {
  configPath : option string;
}.

(** The argument check of the [path] functions. *)
Definition validateString (v : jsval) : result string :=
  match v with
  | Some (JStr s) => Ok s
  | _ => Err TypeError
  end.

Section Plugin.
Context `{Runtime}.

(** [process.env['LUCKY_ENV'] || 'development'] *)
Definition LUCKY_ENV : string :=
  match env_LUCKY_ENV with
  | Some s => if String.eqb s "" then "development" else s
  | None => "development"
  end.

Definition LUCKY_ROOT : string := cwd.

(** The first argument of [Object.assign] in [loadConfig]. *)
Definition defaults : object :=
  {| own :=
       <["outDir" := JStr "public"]>
       (<["entry" := JStr "entry"]>
       (<["host" := JStr "127.0.0.1"]>
       (<["port" := JNum 3010]>
       (<["root" := JStr "src/js"]>
       (<["aliases" := JArr [JStr "js"; JStr "css"; JStr "images"; JStr "fonts"]]>
        ∅)))));
     proto := None |}.

Definition loadConfig (fs : node) (configPath : string) : result object :=
  text ← readFileSync fs cwd configPath;
  match JSON_parse text with
  | Some parsed => Ok (Object_assign defaults parsed)
  | None => Err SyntaxError
  end.

(** [resolveAliases(dirs = [])]: only an array has a [map] method. *)
Definition resolveAliases (dirs : jsval) : result (list Alias) :=
  match dirs with
  | None => Ok []
  | Some (JArr l) =>
      Ok ((fun alias =>
             {| find := "@" +:+ ToString alias;
                replacement :=
                  Path.resolve LUCKY_ROOT ["src/" +:+ ToString alias] |})
          <$> l)
  | Some _ => Err TypeError
  end.

(** The value of [host] after [if (typeof host === 'boolean') host = '0.0.0.0']. *)
Definition resolved_host (host : jsval) : jsval :=
  if is_boolean host then Some (JStr "0.0.0.0") else host.

(** The value of [origin] after
    [origin ||= `http${https ? 's' : ''}://${host}:${port}`]. *)
Definition resolved_origin (https host port origin : jsval) : jsval :=
  if truthy origin then origin
  else
    Some (JStr ("http" +:+ (if truthy https then "s" else "") +:+ "://"
                +:+ ToString_val host +:+ ":" +:+ ToString_val port)).

Definition configureServer (config : object) : result ServerConfig :=
  let https := Some (default (JBool false) (Get config "https")) in
  let host := resolved_host (Get config "host") in
  let origin := resolved_origin https host (Get config "port") (Get config "origin") in
  match URL_parse (ToString_val origin) with
  | None => Err TypeError
  | Some uri =>
      Ok {| server_origin := origin;
            server_host := hostname uri;
            server_port := port uri;
            server_https := String.eqb (protocol uri) "https:" |}
  end.

Definition findEntryScripts (fs : node) (root : string) : result (list string) :=
  entries ← readdirSync fs cwd (Path.resolve cwd [root]);
  Ok ((fun entry => Path.resolve cwd [Path.join [root; entry]])
      <$> (entries : list string)).

(** The [config] hook of the plugin object, for the merged configuration
    [config] and the entry root [root] the factory computed. *)
Definition config_hook (config : object) (root : string) (fs : node)
    : result UserConfig :=
  alias ← resolveAliases (Get config "aliases");
  server ← configureServer config;
  outDir ← validateString (Get config "outDir");
  input ← findEntryScripts fs root;
  Ok {| root := root;
        resolve_alias := alias;
        server := server;
        build :=
          {| outDir := Path.resolve LUCKY_ROOT [outDir];
             sourcemap := negb (test re_env LUCKY_ENV);
             emptyOutDir := false;
             manifest := true;
             rollupOptions :=
               {| input := input;
                  output :=
                    {| entryFileNames := formatAssetFilePath (Some "js") (Some ".js");
                       chunkFileNames := formatAssetFilePath (Some "js") (Some ".js");
                       assetFileNames := determineAssetFilePath |} |} |} |}.

Definition dirsToClean : list string := ["js"; "css"; "images"; "fonts"; ".vite"].

(** The loop of [buildStart] over the directories left to clean. *)
Fixpoint clean (outDir : string) (dirs : list string) (fs : node) : result node :=
  match dirs with
  | [] => Ok fs
  | dir :: rest =>
      let fullPath := Path.join [outDir; dir] in
      if existsSync fs cwd fullPath then
        fs' ← rmSync rm_denied fs cwd fullPath;
        clean outDir rest fs'
      else clean outDir rest fs
  end.

(** The [buildStart] hook of the plugin object. *)
Definition buildStart_hook (config : object) (fs : node) : result node :=
  outDir ← validateString (Get config "outDir");
  clean (Path.resolve LUCKY_ROOT [outDir]) dirsToClean fs.

(** The default export: the plugin factory, called on the file system [fs]
    with the options object, if any. *)
Definition plugin (fs : node) (options : option PluginConfig) : result Plugin :=
  let configPath :=
    default "config/lucky_vite.json" (options ≫= configPath) in
  config ← loadConfig fs configPath;
  r ← validateString (Get config "root");
  e ← validateString (Get config "entry");
  let root := Path.join [LUCKY_ROOT; r; e] in
  Ok {| name := "vite-plugin-lucky";
        config := config_hook config root;
        buildStart := buildStart_hook config |}.

End Plugin.

(** ** A concrete host process

    To run the plugin on concrete inputs the runtime services need
    implementations. [SimpleUrl.parse] serves as [new URL]; for
    [JSON.parse] a small recursive-descent parser follows, covering the
    JSON texts whose numbers are integers and whose strings use no [\u]
    escape (it answers [None] on any other text). *)
Module SimpleJson.

Definition quote : ascii := ascii_of_nat 34.
Definition backslash : ascii := ascii_of_nat 92.

Definition is_ws (c : ascii) : bool :=
  let n := nat_of_ascii c in
  (n =? 32)%nat || (n =? 9)%nat || (n =? 10)%nat || (n =? 13)%nat.

Fixpoint skip_ws (s : string) : string :=
  match s with
  | String c t => if is_ws c then skip_ws t else s
  | EmptyString => s
  end.

Definition unescape (c : ascii) : option ascii :=
  if Ascii.eqb c quote then Some quote
  else if Ascii.eqb c backslash then Some backslash
  else if Ascii.eqb c "/" then Some "/"%char
  else if Ascii.eqb c "b" then Some (ascii_of_nat 8)
  else if Ascii.eqb c "f" then Some (ascii_of_nat 12)
  else if Ascii.eqb c "n" then Some (ascii_of_nat 10)
  else if Ascii.eqb c "r" then Some (ascii_of_nat 13)
  else if Ascii.eqb c "t" then Some (ascii_of_nat 9)
  else None.

(** The characters of a string literal after its opening quote, and what
    follows the closing quote. *)
Fixpoint string_body (s : string) : option (string * string) :=
  match s with
  | EmptyString => None
  | String c t =>
      if Ascii.eqb c quote then Some (EmptyString, t)
      else if Ascii.eqb c backslash then
        match t with
        | String e t' =>
            c' ← unescape e;
            wr ← string_body t';
            Some (String c' wr.1, wr.2)
        | EmptyString => None
        end
      else if (nat_of_ascii c <? 32)%nat then None
      else
        wr ← string_body t;
        Some (String c wr.1, wr.2)
  end.

Fixpoint take_digits (s : string) : string * string :=
  match s with
  | String c t =>
      if SimpleUrl.is_digit c then
        let dr := take_digits t in (String c dr.1, dr.2)
      else (EmptyString, s)
  | EmptyString => (EmptyString, s)
  end.

Definition starts_fraction (s : string) : bool :=
  match s with
  | String c _ => Ascii.eqb c "." || Ascii.eqb c "e" || Ascii.eqb c "E"
  | EmptyString => false
  end.

Definition integer (negative : bool) (s : string) : option (json * string) :=
  let dr := take_digits s in
  match dr.1 with
  | EmptyString => None
  | String d more =>
      if Ascii.eqb d "0" && negb (String.eqb more "") then None
      else if starts_fraction dr.2 then None
      else
        let v := Z.of_N (SimpleUrl.digits_value 0 dr.1) in
        Some (JNum (if negative then (- v)%Z else v), dr.2)
  end.

(** The elements of an array after the first bracket, given the parser
    [value] of one value; [k] bounds the number of elements. *)
Fixpoint elements (value : string → option (json * string)) (k : nat) (s : string)
    : option (list json * string) :=
  match k with
  | O => None
  | S k' =>
      vr ← value s;
      match skip_ws vr.2 with
      | String c r =>
          if Ascii.eqb c "," then
            more ← elements value k' r;
            Some (vr.1 :: more.1, more.2)
          else if Ascii.eqb c "]" then Some ([vr.1], r)
          else None
      | EmptyString => None
      end
  end.

(** The members of an object after the brace. *)
Fixpoint members (value : string → option (json * string)) (k : nat) (s : string)
    : option (list (string * json) * string) :=
  match k with
  | O => None
  | S k' =>
      match skip_ws s with
      | String c0 r0 =>
          if Ascii.eqb c0 quote then
            key ← string_body r0;
            match skip_ws key.2 with
            | String c1 r1 =>
                if Ascii.eqb c1 ":" then
                  vr ← value r1;
                  match skip_ws vr.2 with
                  | String c r =>
                      if Ascii.eqb c "," then
                        more ← members value k' r;
                        Some ((key.1, vr.1) :: more.1, more.2)
                      else if Ascii.eqb c "}" then Some ([(key.1, vr.1)], r)
                      else None
                  | EmptyString => None
                  end
                else None
            | EmptyString => None
            end
          else None
      | EmptyString => None
      end
  end.

(** A later member overrides an earlier one of the same name. *)
Definition object_of (kvs : list (string * json)) : json :=
  JObj (foldl (fun m kv => <[kv.1 := kv.2]> m) ∅ kvs).

Fixpoint value (fuel : nat) (s : string) : option (json * string) :=
  match fuel with
  | O => None
  | S n =>
      match skip_ws s with
      | EmptyString => None
      | String c t =>
          if Ascii.eqb c "{" then
            match skip_ws t with
            | String c' r =>
                if Ascii.eqb c' "}" then Some (JObj ∅, r)
                else
                  kvs ← members (value n) (String.length t) t;
                  Some (object_of kvs.1, kvs.2)
            | EmptyString => None
            end
          else if Ascii.eqb c "[" then
            match skip_ws t with
            | String c' r =>
                if Ascii.eqb c' "]" then Some (JArr [], r)
                else
                  vs ← elements (value n) (String.length t) t;
                  Some (JArr vs.1, vs.2)
            | EmptyString => None
            end
          else if Ascii.eqb c quote then
            wr ← string_body t;
            Some (JStr wr.1, wr.2)
          else if Ascii.eqb c "-" then integer true t
          else if SimpleUrl.is_digit c then integer false (String c t)
          else
            match SimpleUrl.strip_prefix "null" (String c t) with
            | Some r => Some (JNull, r)
            | None =>
                match SimpleUrl.strip_prefix "true" (String c t) with
                | Some r => Some (JBool true, r)
                | None =>
                    match SimpleUrl.strip_prefix "false" (String c t) with
                    | Some r => Some (JBool false, r)
                    | None => None
                    end
                end
            end
      end
  end.

Definition parse (text : string) : option json :=
  vr ← value (S (String.length text)) text;
  match skip_ws vr.2 with
  | EmptyString => Some vr.1
  | String _ _ => None
  end.

(** [s] between double quotes. *)
Definition quoted (s : string) : string :=
  String quote s +:+ String quote EmptyString.

End SimpleJson.

(** A process started in [/app], where deleting [/app/public/fonts] is
    refused. *)
Definition node_process (env : option string) : Runtime :=
  {| JSON_parse := SimpleJson.parse;
     URL_parse := SimpleUrl.parse;
     URL_parse_simple := fun _ _ H => H;
     cwd := "/app";
     cwd_absolute := eq_refl;
     env_LUCKY_ENV := env;
     rm_denied := fun loc => bool_decide (loc = ["app"; "public"; "fonts"]) |}.

(** [{"host": "localhost", "https": false, "aliases": ["js", "css"]}] *)
Definition sample_json : string :=
  "{" +:+ SimpleJson.quoted "host" +:+ ": " +:+ SimpleJson.quoted "localhost"
  +:+ ", " +:+ SimpleJson.quoted "https" +:+ ": false, "
  +:+ SimpleJson.quoted "aliases" +:+ ": ["
  +:+ SimpleJson.quoted "js" +:+ ", " +:+ SimpleJson.quoted "css" +:+ "]}".

(** The object [sample_json] denotes. *)
Definition sample_config : gmap string json :=
  <["host" := JStr "localhost"]>
  (<["https" := JBool false]>
  (<["aliases" := JArr [JStr "js"; JStr "css"]]> ∅)).

(** A project tree: the shared configuration, two entry scripts, and an
    output directory holding earlier build results next to a file of the
    framework. *)
Definition sample_fs : node :=
  Dir [("app",
        Dir [("config",
              Dir [("lucky_vite.json", File sample_json);
                   ("broken.json", File "{ host: ")]);
             ("src",
              Dir [("js",
                    Dir [("entry",
                          Dir [("main.js", File "import '../app'");
                               ("admin.js", File "import '../admin'")]);
                         ("app.js", File "")])]);
             ("public",
              Dir [("favicon.ico", File "");
                   ("js", Dir [("main.abc123.js", File "")]);
                   ("css", Dir [("main.def456.css", File "")]);
                   (".vite", Dir [("manifest.json", File "{}")]);
                   ("robots.txt", File "")])])].

(** ** More sample data *)

(** A key that starts with a digit, as the index of an array element or of
    a character does. *)
Definition index_like (k : string) : bool :=
  match k with
  | String c _ => SimpleUrl.is_digit c
  | EmptyString => false
  end.

(** [{"__proto__": {"origin": "https://cdn.example:8443"}, "port": "4000"}] *)
Definition proto_json : string :=
  "{" +:+ SimpleJson.quoted "__proto__" +:+ ": {"
  +:+ SimpleJson.quoted "origin" +:+ ": "
  +:+ SimpleJson.quoted "https://cdn.example:8443" +:+ "}, "
  +:+ SimpleJson.quoted "port" +:+ ": " +:+ SimpleJson.quoted "4000" +:+ "}".

(** The object [proto_json] denotes. *)
Definition proto_config : gmap string json :=
  <["__proto__" := JObj (<["origin" := JStr "https://cdn.example:8443"]> ∅)]>
  (<["port" := JStr "4000"]> ∅).

(** [{"root": 5}] *)
Definition bad_root_json : string :=
  "{" +:+ SimpleJson.quoted "root" +:+ ": 5}".

(** [{"outDir": ["public"]}] *)
Definition bad_outDir_json : string :=
  "{" +:+ SimpleJson.quoted "outDir" +:+ ": [" +:+ SimpleJson.quoted "public" +:+ "]}".

(** A second project tree, in [/app] as well: configuration files of
    unusual content, an entry directory holding a script and a
    sub-directory, and an output directory with a [fonts] directory, the
    one the sample process may not delete. *)
Definition odd_fs : node :=
  Dir [("app",
        Dir [("config",
              Dir [("lucky_vite.json", File "null");
                   ("list.json", File "[1, 2]");
                   ("proto.json", File proto_json);
                   ("bad_root.json", File bad_root_json);
                   ("bad_outDir.json", File bad_outDir_json)]);
             ("src",
              Dir [("js",
                    Dir [("entry",
                          Dir [("main.js", File "");
                               ("lib", Dir [("util.js", File "")])]);
                         ("empty", Dir [])])]);
             ("public",
              Dir [("js", Dir []);
                   ("fonts", Dir [("a.woff2", File "")]);
                   ("robots.txt", File "")])])].
(** * Properties *)

(** ** Strings *)

#[local] Arguments String.append : simpl nomatch.

Lemma append_assoc (a b c : string) : (a +:+ b) +:+ c = a +:+ b +:+ c.
Proof. induction a as [|x a IH]; simpl; [done | by f_equal]. Qed.

Lemma chars_app (a b : string) : chars (a +:+ b) = chars a ++ chars b.
Proof. induction a as [|x a IH]; simpl; [done | by f_equal]. Qed.

Lemma chars_inj (a b : string) : chars a = chars b → a = b.
Proof.
  intros E. rewrite <- (string_of_list_ascii_of_string a),
    <- (string_of_list_ascii_of_string b). by rewrite E.
Qed.

Lemma ends_with_chars (suf s : string) :
  ends_with suf s ↔ chars suf `suffix_of` chars s.
Proof.
  split.
  - intros [p ->]. exists (chars p). apply chars_app.
  - intros [k E]. exists (str k). apply chars_inj.
    by rewrite chars_app, list_ascii_of_string_of_list_ascii.
Qed.

Lemma contains_chars (w s : string) :
  contains w s ↔ ∃ p q, chars s = p ++ chars w ++ q.
Proof.
  split.
  - intros (p & q & ->). exists (chars p), (chars q).
    by rewrite !chars_app.
  - intros (p & q & E). exists (str p), (str q). apply chars_inj.
    by rewrite !chars_app, !list_ascii_of_string_of_list_ascii.
Qed.

(** ** Regular expressions *)

(** [rem] computes exactly the matches [lang] lists. *)
Lemma rem_lang (r : regex) : ∀ s t,
  t ∈ rem r s ↔ ∃ a, a ∈ lang r ∧ s = a.1 ++ t ∧ (a.2 = true → t = []).
Proof.
  induction r as [|c|r1 IH1 r2 IH2|r1 IH1 r2 IH2|r1 IH1|]; intros s t; simpl.
  - rewrite list_elem_of_singleton. split.
    + intros ->. exists ([], false). rewrite list_elem_of_singleton. done.
    + intros (a & Ha & -> & _). apply list_elem_of_singleton in Ha. by subst.
  - split.
    + destruct s as [|c' s]; [by intros ?%elem_of_nil|].
      destruct (Ascii.eqb_spec c c') as [<-|]; [|by intros ?%elem_of_nil].
      intros ->%list_elem_of_singleton. exists ([c], false).
      rewrite list_elem_of_singleton. done.
    + intros (a & ->%list_elem_of_singleton & -> & _). simpl.
      rewrite Ascii.eqb_refl. by apply list_elem_of_singleton.
  - rewrite list_elem_of_bind. split.
    + intros (u & Ht & Hu). apply IH1 in Hu as (a & Ha & -> & Hea).
      apply IH2 in Ht as (b & Hb & -> & Heb).
      destruct a as [w1 [|]], b as [w2 f2]; simpl in *.
      * specialize (Hea eq_refl). apply app_eq_nil in Hea as [-> ->].
        exists (w1, true). split; [|done].
        apply list_elem_of_bind. exists (w1, true). split; [|done].
        apply list_elem_of_bind. exists ([], f2). split; [|done].
        by apply list_elem_of_singleton.
      * exists (w1 ++ w2, f2). split; [|by simpl; rewrite <- app_assoc].
        apply list_elem_of_bind. exists (w1, false). split; [|done].
        apply list_elem_of_bind. exists (w2, f2). split; [|done].
        by apply list_elem_of_singleton.
    + intros (c & Hc & -> & Hec).
      apply list_elem_of_bind in Hc as ([w1 e1] & Hc & Ha).
      apply list_elem_of_bind in Hc as ([w2 f2] & Hc & Hb).
      destruct e1.
      * destruct w2; [|by apply elem_of_nil in Hc].
        apply list_elem_of_singleton in Hc as ->. simpl in *.
        specialize (Hec eq_refl) as ->. exists []. split.
        -- apply IH2. exists ([], f2). done.
        -- apply IH1. exists (w1, true). done.
      * apply list_elem_of_singleton in Hc as ->. simpl in *.
        exists (w2 ++ t). split.
        -- apply IH2. exists (w2, f2). done.
        -- apply IH1. exists (w1, false). split; [done|].
           by rewrite <- app_assoc.
  - rewrite elem_of_app, IH1, IH2. split.
    + intros [(a & Ha & H)|(a & Ha & H)]; exists a; rewrite elem_of_app; auto.
    + intros (a & [Ha|Ha]%elem_of_app & H); [left|right]; eauto.
  - rewrite elem_of_app, IH1, list_elem_of_singleton. split.
    + intros [(a & Ha & H)| ->].
      * exists a. rewrite elem_of_app. auto.
      * exists ([], false). rewrite elem_of_app, list_elem_of_singleton.
        split; [by right | done].
    + intros (a & [Ha|Ha]%elem_of_app & Hs & Ht); [left; eauto|right].
      apply list_elem_of_singleton in Ha as ->. by subst.
  - split.
    + destruct s; [|by intros ?%elem_of_nil].
      intros ->%list_elem_of_singleton. exists ([], true).
      rewrite list_elem_of_singleton. done.
    + intros (a & ->%list_elem_of_singleton & -> & Ht).
      rewrite Ht by done. by apply list_elem_of_singleton.
Qed.

Lemma matches_at_lang (r : regex) (s : list ascii) :
  matches_at r s = true ↔
  ∃ a t, a ∈ lang r ∧ s = a.1 ++ t ∧ (a.2 = true → t = []).
Proof.
  unfold matches_at. split.
  - destruct (rem r s) as [|t l] eqn:E; [done|]. intros _.
    assert (Ht : t ∈ rem r s) by (rewrite E; left).
    apply rem_lang in Ht as (a & ?). by exists a, t.
  - intros (a & t & H). assert (Ht : t ∈ rem r s) by (apply rem_lang; eauto).
    destruct (rem r s); [by apply elem_of_nil in Ht | done].
Qed.

Lemma search_lang (r : regex) (s : list ascii) :
  search r s = true ↔
  ∃ a p t, a ∈ lang r ∧ s = p ++ a.1 ++ t ∧ (a.2 = true → t = []).
Proof.
  induction s as [|c s IH]; simpl.
  - rewrite orb_false_r, matches_at_lang. split.
    + intros (a & t & ?). by exists a, [], t.
    + intros (a & [|??] & t & Ha & E & Ht); [|done]. by exists a, t.
  - rewrite orb_true_iff, matches_at_lang, IH. split.
    + intros [(a & t & ?)|(a & p & t & Ha & -> & Ht)].
      * by exists a, [], t.
      * by exists a, (c :: p), t.
    + intros (a & [|c' p] & t & Ha & E & Ht).
      * left. by exists a, t.
      * right. injection E as -> ->. by exists a, p, t.
Qed.

(** A regex all of whose matches must reach the end of the input tests
    for a suffix. *)
Lemma test_suffixes (r : regex) (ws : list string) (s : string) :
  lang r = (λ w, (chars w, true)) <$> ws →
  test r s = true ↔ ∃ w, w ∈ ws ∧ ends_with w s.
Proof.
  intros L. unfold test. rewrite search_lang, L. split.
  - intros (a & p & t & Ha & E & Ht).
    apply list_elem_of_fmap in Ha as (w & -> & Hw). simpl in *.
    rewrite Ht, app_nil_r in E by done.
    exists w. split; [done|]. apply ends_with_chars. by exists p.
  - intros (w & Hw & [p E]%ends_with_chars).
    exists (chars w, true), p, []. rewrite app_nil_r.
    split; [|done]. apply list_elem_of_fmap. eauto.
Qed.

(** A regex without [$] tests for a substring. *)
Lemma test_substrings (r : regex) (ws : list string) (s : string) :
  lang r = (λ w, (chars w, false)) <$> ws →
  test r s = true ↔ ∃ w, w ∈ ws ∧ contains w s.
Proof.
  intros L. unfold test. rewrite search_lang, L. split.
  - intros (a & p & t & Ha & E & _).
    apply list_elem_of_fmap in Ha as (w & -> & Hw). simpl in *.
    exists w. split; [done|]. apply contains_chars. eauto.
  - intros (w & Hw & (p & q & E)%contains_chars).
    exists (chars w, false), p, q.
    split; [|done]. apply list_elem_of_fmap. eauto.
Qed.

Lemma test_re_image (s : string) :
  test re_image s = true ↔
  ∃ e, e ∈ ["gif"; "jpg"; "jpeg"; "png"; "webp"; "avif"; "svg"]
       ∧ ends_with ("." +:+ e) s.
Proof.
  rewrite (test_suffixes re_image
             [".gif"; ".jpeg"; ".jpg"; ".png"; ".webp"; ".avif"; ".svg"])
    by reflexivity.
  split.
  - intros (w & Hw & E). repeat (apply elem_of_cons in Hw as [->|Hw]);
      [..|by apply elem_of_nil in Hw];
      eexists; (split; [|exact E]); set_solver.
  - intros (e & He & E). exists ("." +:+ e). split; [|done].
    repeat (apply elem_of_cons in He as [->|He]);
      [..|by apply elem_of_nil in He]; set_solver.
Qed.

Lemma test_re_css (s : string) : test re_css s = true ↔ ends_with ".css" s.
Proof.
  rewrite (test_suffixes re_css [".css"]) by reflexivity. split.
  - by intros (w & ->%list_elem_of_singleton & E).
  - intros E. exists ".css". split; [by apply list_elem_of_singleton | done].
Qed.

Lemma test_re_font (s : string) :
  test re_font s = true ↔ ends_with ".woff" s ∨ ends_with ".woff2" s.
Proof.
  rewrite (test_suffixes re_font [".woff2"; ".woff"]) by reflexivity. split.
  - intros (w & Hw & E). repeat (apply elem_of_cons in Hw as [->|Hw]);
      [auto..|by apply elem_of_nil in Hw].
  - intros [E|E]; eexists; (split; [|exact E]); set_solver.
Qed.

Lemma test_re_env (s : string) :
  test re_env s = true ↔ contains "test" s ∨ contains "development" s.
Proof.
  rewrite (test_substrings re_env ["test"; "development"]) by reflexivity. split.
  - intros (w & Hw & E). repeat (apply elem_of_cons in Hw as [->|Hw]);
      [auto..|by apply elem_of_nil in Hw].
  - intros [E|E]; eexists; (split; [|exact E]); set_solver.
Qed.

(** ** Splitting and joining on a separator *)

Lemma append_cons (c : ascii) (s t : string) :
  String c s +:+ t = String c (s +:+ t).
Proof. done. Qed.

Lemma split_on_cons (sep : ascii) (s : string) :
  ∃ w ws, split_on sep s = w :: ws.
Proof.
  destruct s as [|c s]; simpl; [by eauto|].
  destruct (Ascii.eqb c sep); [by eauto|].
  destruct (split_on sep s); eauto.
Qed.

Lemma split_on_app (sep : ascii) (a b : string) :
  split_on sep (a +:+ String sep b) = split_on sep a ++ split_on sep b.
Proof.
  induction a as [|c a IH]; simpl.
  - by rewrite Ascii.eqb_refl.
  - destruct (Ascii.eqb c sep); [by rewrite IH|].
    rewrite IH. by destruct (split_on_cons sep a) as (w & ws & ->).
Qed.

Lemma split_on_no_sep (sep : ascii) (s : string) :
  all_chars (λ c, negb (Ascii.eqb c sep)) s = true → split_on sep s = [s].
Proof.
  induction s as [|c s IH]; simpl; [done|].
  intros [Hc Hs]%andb_true_iff. apply negb_true_iff in Hc.
  by rewrite Hc, IH.
Qed.

Lemma split_on_elems (sep : ascii) (s : string) :
  Forall (λ x, all_chars (λ c, negb (Ascii.eqb c sep)) x = true) (split_on sep s).
Proof.
  induction s as [|c s IH]; simpl; [by repeat constructor|].
  destruct (Ascii.eqb c sep) eqn:E; [by constructor|].
  destruct (split_on sep s) as [|w ws]; [by repeat constructor; simpl; rewrite E|].
  inversion_clear IH. constructor; [|done]. simpl. by rewrite E.
Qed.

Module PathFacts.
Import Path.

Lemma split_slash_app (a b : string) :
  split_slash (a +:+ String "/" b) = split_slash a ++ split_slash b.
Proof. apply split_on_app. Qed.

Lemma split_slash_elems (s : string) :
  Forall (λ x, no_slash x = true) (split_slash s).
Proof. apply split_on_elems. Qed.

Lemma is_seg_no_slash (s : string) : is_seg s = true → no_slash s = true.
Proof. unfold is_seg. by intros [[? _]%andb_true_iff _]%andb_true_iff. Qed.

Lemma is_name_seg (s : string) : is_name s = true → is_seg s = true.
Proof. unfold is_name. by intros [? _]%andb_true_iff. Qed.

Lemma is_name_no_slash (s : string) : is_name s = true → no_slash s = true.
Proof. intros. by apply is_seg_no_slash, is_name_seg. Qed.

Lemma is_seg_nonempty (s : string) : is_seg s = true → s ≠ "".
Proof.
  unfold is_seg. intros [[_ H]%andb_true_iff _]%andb_true_iff.
  apply negb_true_iff in H. by apply String.eqb_neq.
Qed.

Lemma split_slash_join (l : list string) :
  l ≠ [] → Forall (λ x, no_slash x = true) l → split_slash (join_slash l) = l.
Proof.
  induction l as [|s [|s' t] IH]; [done|..]; intros _ Hl.
  - simpl. apply split_on_no_sep. by inversion Hl.
  - change (join_slash (s :: s' :: t)) with (s +:+ String "/" (join_slash (s' :: t))).
    inversion_clear Hl. rewrite split_slash_app, IH by done.
    unfold split_slash. by rewrite split_on_no_sep.
Qed.

Lemma join_slash_snoc (l : list string) (d : string) :
  l ≠ [] → join_slash (l ++ [d]) = join_slash l +:+ "/" +:+ d.
Proof.
  induction l as [|s [|s' t] IH]; [done|done|]. intros _.
  change (join_slash ((s :: s' :: t) ++ [d]))
    with (s +:+ "/" +:+ join_slash ((s' :: t) ++ [d])).
  rewrite IH by done.
  change (join_slash (s :: s' :: t)) with (s +:+ "/" +:+ join_slash (s' :: t)).
  by rewrite !append_assoc.
Qed.

Lemma is_absolute_app (a b : string) :
  a ≠ "" → is_absolute (a +:+ b) = is_absolute a.
Proof. by destruct a. Qed.

Lemma is_absolute_no_slash (s : string) : no_slash s = true → is_absolute s = false.
Proof.
  destruct s as [|c s]; [done|]. simpl.
  intros [H _]%andb_true_iff. by apply negb_true_iff.
Qed.

Lemma is_absolute_join (l : list string) :
  Forall (λ x, is_seg x = true) l → is_absolute (join_slash l) = false.
Proof.
  destruct l as [|s [|s' t]]; [done|..]; intros Hl; inversion_clear Hl.
  - simpl. by apply is_absolute_no_slash, is_seg_no_slash.
  - change (join_slash (s :: s' :: t)) with (s +:+ "/" +:+ join_slash (s' :: t)).
    rewrite is_absolute_app by by apply is_seg_nonempty.
    by apply is_absolute_no_slash, is_seg_no_slash.
Qed.

Lemma has_trailing_slash_app (a b : string) :
  b ≠ "" → has_trailing_slash (a +:+ b) = has_trailing_slash b.
Proof.
  intros Hb. induction a as [|c a IH]; [done|].
  rewrite append_cons. simpl. rewrite IH.
  destruct (a +:+ b) eqn:E; [|done].
  destruct a, b; done.
Qed.

Lemma has_trailing_slash_cons (c : ascii) (s : string) :
  s ≠ "" → has_trailing_slash (String c s) = has_trailing_slash s.
Proof. by destruct s. Qed.

Lemma has_trailing_slash_no_slash (s : string) :
  no_slash s = true → has_trailing_slash s = false.
Proof.
  induction s as [|c s IH]; [done|]. simpl.
  intros [Hc Hs]%andb_true_iff. apply negb_true_iff in Hc.
  destruct s; [done|]. by apply IH.
Qed.

Lemma join_slash_nonempty (l : list string) (d : string) :
  d ≠ "" → join_slash (l ++ [d]) ≠ "".
Proof.
  intros Hd. destruct l as [|s l]; [done|].
  rewrite join_slash_snoc by done.
  destruct (join_slash (s :: l)); [by destruct d|done].
Qed.

(** *** Normalization *)

Abbreviation nfold b := (foldl (norm_step b)).

Lemma norm_step_name b st s : is_name s = true → norm_step b st s = s :: st.
Proof.
  unfold is_name, is_seg, norm_step.
  intros [[[_ H1]%andb_true_iff H2]%andb_true_iff H3]%andb_true_iff.
  apply negb_true_iff in H1, H2, H3. by rewrite H1, H2, H3.
Qed.

Lemma nfold_names b st l :
  Forall (λ x, is_name x = true) l → nfold b st l = rev l ++ st.
Proof.
  revert st. induction l as [|s l IH]; intros st Hl; [done|].
  inversion_clear Hl. simpl. rewrite norm_step_name, IH by done.
  by rewrite <- app_assoc.
Qed.

Lemma nfold_snoc_empty b st l : nfold b st (l ++ [""]) = nfold b st l.
Proof. by rewrite foldl_app. Qed.

Lemma norm_step_is_name st s :
  Forall (λ x, is_name x = true) st → no_slash s = true →
  Forall (λ x, is_name x = true) (norm_step false st s).
Proof.
  intros Hst Hs. unfold norm_step.
  destruct (String.eqb s "") eqn:E1; [done|].
  destruct (String.eqb s ".") eqn:E2; [done|]. simpl.
  destruct (String.eqb s "..") eqn:E3.
  - destruct st as [|top rest]; [done|]. inversion_clear Hst.
    destruct (String.eqb top ".."); [by constructor | done].
  - constructor; [|done]. unfold is_name, is_seg. by rewrite Hs, E1, E2, E3.
Qed.

Lemma nfold_is_name st l :
  Forall (λ x, is_name x = true) st → Forall (λ x, no_slash x = true) l →
  Forall (λ x, is_name x = true) (nfold false st l).
Proof.
  revert st. induction l as [|s l IH]; intros st Hst Hl; [done|].
  inversion_clear Hl. simpl. apply IH; [|done]. by apply norm_step_is_name.
Qed.

Lemma norm_step_is_seg st s :
  Forall (λ x, is_seg x = true) st → no_slash s = true →
  Forall (λ x, is_seg x = true) (norm_step true st s).
Proof.
  intros Hst Hs. unfold norm_step.
  destruct (String.eqb s "") eqn:E1; [done|].
  destruct (String.eqb s ".") eqn:E2; [done|]. simpl.
  destruct (String.eqb s "..") eqn:E3.
  - apply String.eqb_eq in E3 as ->.
    destruct st as [|top rest]; [by repeat constructor|].
    destruct (String.eqb top ".."); [by constructor|]. by inversion Hst.
  - constructor; [|done]. unfold is_seg. by rewrite Hs, E1, E2.
Qed.

Lemma nfold_is_seg st l :
  Forall (λ x, is_seg x = true) st → Forall (λ x, no_slash x = true) l →
  Forall (λ x, is_seg x = true) (nfold true st l).
Proof.
  revert st. induction l as [|s l IH]; intros st Hst Hl; [done|].
  inversion_clear Hl. simpl. apply IH; [|done]. by apply norm_step_is_seg.
Qed.

Lemma norm_step_skip b st s :
  String.eqb s "" || String.eqb s "." = true → norm_step b st s = st.
Proof. unfold norm_step. by intros ->. Qed.

Lemma norm_step_dotdot b st :
  norm_step b st ".." =
  match st with
  | top :: rest =>
      if String.eqb top ".." then if b then ".." :: st else st else rest
  | [] => if b then [".."] else []
  end.
Proof. done. Qed.

Lemma norm_step_push b st s :
  String.eqb s "" || String.eqb s "." = false → String.eqb s ".." = false →
  norm_step b st s = s :: st.
Proof. unfold norm_step. by intros -> ->. Qed.

#[global] Arguments norm_step : simpl never.

Lemma norm_step_relative_first (A st : list string) (s : string) :
  Forall (λ x, is_seg x = true) A →
  nfold false st (rev (norm_step true A s))
  = norm_step false (nfold false st (rev A)) s.
Proof.
  intros HA.
  destruct (String.eqb s "" || String.eqb s ".") eqn:E1.
  { by rewrite !norm_step_skip. }
  destruct (String.eqb s "..") eqn:E2.
  - apply String.eqb_eq in E2 as ->. rewrite !norm_step_dotdot.
    destruct A as [|top rest]; [done|].
    destruct (String.eqb top "..") eqn:E3.
    + change (rev (".." :: top :: rest)) with (rev (top :: rest) ++ [".."]).
      by rewrite foldl_app.
    + inversion_clear HA. simpl. rewrite foldl_app. simpl.
      rewrite (norm_step_name _ _ top) by (unfold is_name; by rewrite H, E3).
      by rewrite E3.
  - rewrite !norm_step_push by done. simpl. rewrite foldl_app. simpl.
    by rewrite norm_step_push.
Qed.

(** Normalizing a relative path first, climbing allowed, and then below a
    directory is the same as normalizing it below that directory at once. *)
Lemma nfold_relative_first (segs : list string) : ∀ A st,
  Forall (λ x, is_seg x = true) A →
  Forall (λ x, no_slash x = true) segs →
  nfold false st (rev (nfold true A segs))
  = nfold false (nfold false st (rev A)) segs.
Proof.
  induction segs as [|s segs IH]; intros A st HA Hs; [done|].
  inversion_clear Hs. simpl.
  rewrite IH, norm_step_relative_first by auto using norm_step_is_seg.
  done.
Qed.

(** *** [resolve] and [join] *)

Lemma Forall_is_name_no_slash (l : list string) :
  Forall (λ x, is_name x = true) l → Forall (λ x, no_slash x = true) l.
Proof. intros H. eapply Forall_impl; [done|]. intros. by apply is_name_no_slash. Qed.

Lemma Forall_is_seg_no_slash (l : list string) :
  Forall (λ x, is_seg x = true) l → Forall (λ x, no_slash x = true) l.
Proof. intros H. eapply Forall_impl; [done|]. intros. by apply is_seg_no_slash. Qed.

Lemma norm_segments_is_name (p : string) :
  Forall (λ x, is_name x = true) (norm_segments p false).
Proof.
  unfold norm_segments. apply List.Forall_rev.
  apply nfold_is_name; [done | apply split_slash_elems].
Qed.

Lemma split_from_components (l : list string) :
  Forall (λ x, is_name x = true) l →
  split_slash (from_components l) = "" :: match l with [] => [""] | _ => l end.
Proof.
  intros Hl. destruct l as [|s t]; [done|]. unfold from_components.
  change ("/" +:+ join_slash (s :: t)) with ("" +:+ String "/" (join_slash (s :: t))).
  rewrite split_slash_app, split_slash_join;
    [done | done | by apply Forall_is_name_no_slash].
Qed.

Lemma nfold_from_components b (l : list string) :
  Forall (λ x, is_name x = true) l →
  nfold b [] (split_slash (from_components l)) = rev l.
Proof.
  intros Hl. rewrite split_from_components by done. simpl.
  rewrite norm_step_skip by done. destruct l as [|s t]; [done|].
  rewrite nfold_names by done. apply app_nil_r.
Qed.

Lemma components_from_components (l : list string) :
  Forall (λ x, is_name x = true) l → components (from_components l) = l.
Proof.
  intros Hl. unfold components, norm_segments.
  rewrite nfold_from_components by done. apply rev_involutive.
Qed.

Lemma resolve_loop_cwd (cwd : string) (l : list string) (acc : string) :
  is_absolute cwd = true → (resolve_loop (l ++ [cwd]) acc).2 = true.
Proof.
  intros Hc. revert acc. induction l as [|p l IH]; intros acc; simpl.
  - destruct cwd; [done|]. simpl in *. by rewrite Hc.
  - destruct (String.eqb p ""); [done|]. by destruct (is_absolute p).
Qed.

(** In a process with an absolute working directory [resolve] returns an
    absolute path in canonical form. *)
Lemma resolve_canonical (cwd : string) (args : list string) :
  is_absolute cwd = true →
  Forall (λ x, is_name x = true) (components (resolve cwd args))
  ∧ resolve cwd args = from_components (components (resolve cwd args)).
Proof.
  intros Hc. split; [apply norm_segments_is_name|].
  unfold resolve. pose proof (resolve_loop_cwd cwd (rev args) "" Hc) as E.
  destruct (resolve_loop (rev args ++ [cwd]) "") as [rp b]. simpl in E. subst b.
  simpl.
  change (String "/" (normalizeString rp false))
    with (from_components (norm_segments rp false)).
  by rewrite components_from_components by apply norm_segments_is_name.
Qed.

Lemma resolve_one (cwd p : string) :
  is_absolute cwd = true →
  resolve cwd [p] = from_components (rev (nfold false [] (resolve_input cwd p))).
Proof.
  intros Hc. unfold resolve, resolve_input. simpl.
  assert (Hne : String.eqb cwd "" = false) by by destruct cwd.
  destruct (String.eqb p "") eqn:Ep.
  - rewrite Hne, Hc. simpl. unfold normalizeString, norm_segments.
    by rewrite split_slash_app, nfold_snoc_empty.
  - destruct (is_absolute p) eqn:Ea; simpl.
    + unfold normalizeString, norm_segments.
      by rewrite split_slash_app, nfold_snoc_empty.
    + rewrite Hne, Hc. simpl. unfold normalizeString, norm_segments.
      by rewrite !split_slash_app, app_assoc, nfold_snoc_empty.
Qed.

Lemma components_resolve_one (cwd p : string) :
  is_absolute cwd = true →
  components (resolve cwd [p]) = rev (nfold false [] (resolve_input cwd p)).
Proof.
  intros Hc. rewrite resolve_one by done.
  apply components_from_components.
  apply List.Forall_rev, nfold_is_name; [done|]. unfold resolve_input.
  repeat case_match; try apply Forall_app_2; apply split_slash_elems.
Qed.

Lemma is_name_nonempty (s : string) : is_name s = true → s ≠ "".
Proof. intros. by apply is_seg_nonempty, is_name_seg. Qed.

Lemma filter_nonempty_pair (root entry : string) :
  entry ≠ "" →
  List.filter (λ a, negb (String.eqb a "")) [root; entry]
  = if String.eqb root "" then [entry] else [root; entry].
Proof.
  intros He%String.eqb_neq. simpl. rewrite He. by destruct (String.eqb root "").
Qed.

(** [join(root, entry)] for the name of a directory entry. *)
Lemma join_entry (root entry : string) :
  is_name entry = true →
  join [root; entry] =
  if String.eqb root "" then entry
  else if is_absolute root
       then from_components (rev (nfold false [] (split_slash root)) ++ [entry])
       else join_slash (rev (nfold true [] (split_slash root)) ++ [entry]).
Proof.
  intros He. pose proof (is_name_nonempty _ He) as Hne.
  pose proof (is_name_no_slash _ He) as Hns.
  unfold join. rewrite filter_nonempty_pair by done.
  destruct (String.eqb root "") eqn:Er.
  - simpl. unfold normalize.
    rewrite (proj2 (String.eqb_neq _ _) Hne), is_absolute_no_slash,
      has_trailing_slash_no_slash by done.
    unfold normalizeString, norm_segments, split_slash.
    rewrite split_on_no_sep by done. simpl. rewrite norm_step_name by done.
    simpl. by rewrite (proj2 (String.eqb_neq _ _) Hne).
  - apply String.eqb_neq in Er.
    change (join_slash [root; entry]) with (root +:+ String "/" entry).
    unfold normalize.
    assert (Hx : String.eqb (root +:+ String "/" entry) "" = false)
      by (apply String.eqb_neq; by destruct root).
    rewrite Hx, is_absolute_app by done.
    rewrite has_trailing_slash_app by done.
    rewrite has_trailing_slash_cons by done.
    rewrite has_trailing_slash_no_slash by done.
    assert (Hn : ∀ b, normalizeString (root +:+ String "/" entry) b
                      = join_slash (rev (nfold b [] (split_slash root)) ++ [entry])).
    { intros b. unfold normalizeString, norm_segments.
      rewrite split_slash_app. unfold split_slash at 2.
      rewrite split_on_no_sep, foldl_app by done. simpl.
      by rewrite norm_step_name by done. }
    cbv zeta. rewrite !Hn.
    assert (Hy : ∀ st, String.eqb (join_slash (rev st ++ [entry])) "" = false)
      by (intros; apply String.eqb_neq; by apply join_slash_nonempty).
    rewrite Hy. by destruct (is_absolute root).
Qed.

Lemma join_from_components (l : list string) (d : string) :
  Forall (λ x, is_name x = true) l → is_name d = true →
  join [from_components l; d] = from_components (l ++ [d]).
Proof.
  intros Hl Hd. rewrite join_entry by done.
  change (String.eqb (from_components l) "") with false.
  change (is_absolute (from_components l)) with true. cbv iota.
  by rewrite nfold_from_components, rev_involutive.
Qed.

(** Joining the name of an entry to a directory and resolving the result
    gives the resolved directory followed by the name. *)
Lemma resolve_join_entry (cwd root entry : string) :
  is_absolute cwd = true → is_name entry = true →
  resolve cwd [join [root; entry]]
  = from_components (components (resolve cwd [root]) ++ [entry]).
Proof.
  intros Hc He. pose proof (is_name_nonempty _ He) as Hne.
  pose proof (is_name_no_slash _ He) as Hns.
  rewrite components_resolve_one, join_entry by done.
  rewrite resolve_one by done. f_equal. unfold resolve_input.
  destruct (String.eqb root "") eqn:Er.
  - rewrite (proj2 (String.eqb_neq _ _) Hne), is_absolute_no_slash by done.
    unfold split_slash at 2. rewrite split_on_no_sep, foldl_app by done.
    simpl. by rewrite norm_step_name.
  - destruct (is_absolute root) eqn:Ea.
    + set (l := rev _ ++ [entry]).
      assert (Hl : Forall (λ x, is_name x = true) l).
      { apply Forall_app_2; [|by repeat constructor].
        apply List.Forall_rev, nfold_is_name; [done | apply split_slash_elems]. }
      change (String.eqb (from_components l) "") with false.
      change (is_absolute (from_components l)) with true. cbv iota.
      rewrite nfold_from_components by done. apply rev_involutive.
    + set (B := nfold true [] (split_slash root)).
      assert (HB : Forall (λ x, is_seg x = true) B)
        by (apply nfold_is_seg; [done | apply split_slash_elems]).
      assert (Hl : Forall (λ x, is_seg x = true) (rev B ++ [entry])).
      { apply Forall_app_2; [|by repeat constructor; apply is_name_seg].
        by apply List.Forall_rev. }
      assert (Hy : String.eqb (join_slash (rev B ++ [entry])) "" = false)
        by (apply String.eqb_neq; by apply join_slash_nonempty).
      rewrite Hy, is_absolute_join by done.
      rewrite split_slash_join;
        [|by destruct (rev B)|by apply Forall_is_seg_no_slash].
      rewrite !foldl_app. simpl. rewrite norm_step_name by done. simpl.
      f_equal. f_equal. unfold B.
      rewrite nfold_relative_first; [done|done|apply split_slash_elems].
Qed.

(** [resolve('src/' + name)] lies two levels below the working directory. *)
Lemma resolve_src (cwd name : string) :
  is_absolute cwd = true → is_name name = true →
  resolve cwd ["src/" +:+ name]
  = from_components (components cwd ++ ["src"; name]).
Proof.
  intros Hc Hn. rewrite resolve_one by done. f_equal.
  unfold resolve_input.
  change (String.eqb ("src/" +:+ name) "") with false.
  change (is_absolute ("src/" +:+ name)) with false. cbv iota.
  change ("src/" +:+ name) with ("src" +:+ String "/" name).
  rewrite split_slash_app. unfold split_slash at 3.
  rewrite split_on_no_sep by by apply is_name_no_slash.
  rewrite foldl_app. simpl. rewrite (norm_step_name _ _ "src") by done.
  rewrite norm_step_name by done. simpl. by rewrite <- app_assoc.
Qed.

End PathFacts.

(** ** The file system *)
Module FsFacts.
Import Path PathFacts.

Lemma lookup_app (n : node) (p q : list string) :
  lookup n (p ++ q) = lookup n p ≫= λ m, lookup m q.
Proof.
  revert n. induction p as [|s p IH]; intros n; [done|]. simpl.
  destruct n as [|es]; [done|]. destruct (child es s); [apply IH | done].
Qed.

Lemma lookup_snoc (n : node) (p : list string) (s : string) :
  lookup n (p ++ [s]) =
  match lookup n p with
  | Some (Dir es) => child es s
  | _ => None
  end.
Proof.
  rewrite lookup_app. destruct (lookup n p) as [[|es]|]; simpl; try done.
  by destruct (child es s).
Qed.

Lemma is_name_eqb (s : string) :
  is_name s = true →
  String.eqb s "" || String.eqb s "." = false ∧ String.eqb s ".." = false.
Proof.
  unfold is_name, is_seg.
  intros [[[_ H1]%andb_true_iff H2]%andb_true_iff H3]%andb_true_iff.
  apply negb_true_iff in H1, H2, H3. by rewrite H1, H2, H3.
Qed.

(** On a chain of names [walk] is [lookup]. *)
Lemma walk_names (root : node) (segs : list string) : ∀ cur,
  Forall (λ x, is_name x = true) segs → segs ≠ [] →
  match lookup root (cur ++ segs) with
  | Some _ => walk root cur segs = Ok (cur ++ segs)
  | None => walk root cur segs = Err ENOENT ∨ walk root cur segs = Err ENOTDIR
  end.
Proof.
  induction segs as [|s rest IH]; intros cur Hs Hne; [done|].
  inversion_clear Hs as [|?? Hn Hrest].
  destruct (is_name_eqb s Hn) as [E1 E2].
  rewrite lookup_app. simpl.
  destruct (lookup root cur) as [[|es]|] eqn:Ecur; simpl; [by right|..|by left].
  rewrite E1, E2. destruct (child es s) as [c|] eqn:Ec; simpl; [|by left].
  destruct rest as [|s' rest']; [done|].
  specialize (IH (cur ++ [s]) Hrest ltac:(done)).
  rewrite lookup_app, lookup_snoc, Ecur, Ec, <- app_assoc in IH. exact IH.
Qed.

Lemma locate_from_components (root : node) (cwd : string) (l : list string) :
  Forall (λ x, is_name x = true) l →
  match lookup root l with
  | Some n =>
      (l ≠ [] ∨ ∃ es, n = Dir es) → locate root cwd (from_components l) = Ok l
  | None =>
      locate root cwd (from_components l) = Err ENOENT
      ∨ locate root cwd (from_components l) = Err ENOTDIR
  end.
Proof.
  intros Hl. unfold locate.
  change (String.eqb (from_components l) "") with false.
  change (is_absolute (from_components l)) with true. cbv iota.
  rewrite split_from_components by done.
  destruct l as [|s t].
  - simpl. by intros [?|[es ->]].
  - pose proof (walk_names root (s :: t) [] Hl ltac:(done)) as W.
    simpl app in W. change (walk root [] ("" :: s :: t)) with
      (match lookup root [] with
       | None => Err ENOENT
       | Some (File _) => Err ENOTDIR
       | Some (Dir es) => walk root [] (s :: t)
       end).
    destruct root as [|es]; [by right|]. simpl lookup at 2.
    destruct (lookup (Dir es) (s :: t)); [by intros _|done].
Qed.

(** *** Removal *)

Lemma has_name_eq (s : string) (e : string * node) :
  has_name s e = true ↔ e.1 = s.
Proof. apply String.eqb_eq. Qed.

Lemma child_cons (e : string * node) (es : list (string * node)) (s : string) :
  child (e :: es) s = if has_name s e then Some e.2 else child es s.
Proof. unfold child. simpl. by destruct (has_name s e). Qed.

Lemma child_filter_same (es : list (string * node)) (s : string) :
  child (List.filter (λ e, negb (has_name s e)) es) s = None.
Proof.
  induction es as [|e es IH]; [done|]. simpl.
  destruct (has_name s e) eqn:E; simpl; [done|]. by rewrite child_cons, E.
Qed.

Lemma child_filter_other (es : list (string * node)) (s t : string) :
  s ≠ t → child (List.filter (λ e, negb (has_name s e)) es) t = child es t.
Proof.
  intros Hne. induction es as [|e es IH]; [done|]. simpl.
  rewrite child_cons. destruct (has_name s e) eqn:E; simpl.
  - destruct (has_name t e) eqn:E'; [|done].
    apply has_name_eq in E, E'. congruence.
  - by rewrite child_cons, IH.
Qed.

Lemma filter_absent (es : list (string * node)) (s : string) :
  child es s = None → List.filter (λ e, negb (has_name s e)) es = es.
Proof.
  induction es as [|e es IH]; [done|]. rewrite child_cons. simpl.
  destruct (has_name s e); [done|]. simpl. intros H. by rewrite IH.
Qed.

Lemma child_alter_same (es : list (string * node)) (s : string) (f : node → node) :
  child (alter_child s f es) s = f <$> child es s.
Proof.
  induction es as [|e es IH]; [done|]. simpl. rewrite child_cons.
  destruct (has_name s e) eqn:E.
  - rewrite child_cons. unfold has_name in *. simpl. by rewrite E.
  - by rewrite child_cons, E.
Qed.

Lemma child_alter_other (es : list (string * node)) (s t : string) (f : node → node) :
  s ≠ t → child (alter_child s f es) t = child es t.
Proof.
  intros Hne. induction es as [|e es IH]; [done|]. simpl.
  destruct (has_name s e) eqn:E.
  - rewrite !child_cons. unfold has_name in *. simpl.
    destruct (String.eqb e.1 t) eqn:E'; [|done].
    apply String.eqb_eq in E, E'. congruence.
  - by rewrite !child_cons, IH.
Qed.

Lemma alter_child_id (es : list (string * node)) (s : string) (f : node → node) :
  match child es s with Some c => f c = c | None => True end →
  alter_child s f es = es.
Proof.
  induction es as [|[t c] es IH]; [done|]. rewrite child_cons. simpl.
  destruct (has_name s (t, c)); simpl; [by intros ->|].
  intros H. by rewrite IH.
Qed.

Lemma remove_cons (s s' : string) (rest : list string) (es : list (string * node)) :
  remove (s :: s' :: rest) (Dir es) = Dir (alter_child s (remove (s' :: rest)) es).
Proof. done. Qed.

(** Removing what is not there changes nothing. *)
Lemma remove_absent (p : list string) : ∀ n,
  lookup n p = None → remove p n = n.
Proof.
  induction p as [|s [|s' rest] IH]; intros [c|es]; try done.
  - simpl. destruct (child es s) eqn:E; [done|]. intros _.
    by rewrite filter_absent.
  - rewrite remove_cons. intros H. rewrite alter_child_id; [done|].
    simpl in H. destruct (child es s) as [c|]; [|done]. by apply IH.
Qed.

(** What was removed is gone. *)
Lemma lookup_remove_same (p : list string) : ∀ n,
  p ≠ [] → lookup (remove p n) p = None.
Proof.
  induction p as [|s [|s' rest] IH]; intros [c|es] Hne; try done.
  - simpl. by rewrite child_filter_same.
  - rewrite remove_cons.
    change (lookup (Dir ?es') (s :: ?q)) with
      (match child es' s with Some c => lookup c q | None => None end).
    rewrite child_alter_same. destruct (child es s); simpl; [|done].
    by apply IH.
Qed.

(** A place that is neither above nor below the removed one is untouched. *)
Lemma lookup_remove_other (p : list string) : ∀ q n,
  ¬ p `prefix_of` q → ¬ q `prefix_of` p →
  lookup (remove p n) q = lookup n q.
Proof.
  induction p as [|s rest IH]; intros q n Hpq Hqp.
  { destruct Hpq. apply prefix_nil. }
  destruct q as [|t q']; [destruct Hqp; apply prefix_nil|].
  destruct n as [c|es]; [by destruct rest|].
  destruct (decide (s = t)) as [->|Hst].
  - destruct rest as [|s' rest'].
    { destruct Hpq. by apply prefix_cons, prefix_nil. }
    rewrite remove_cons. simpl. rewrite child_alter_same.
    destruct (child es t); simpl; [|done].
    apply IH; intros H; [apply Hpq | apply Hqp]; by apply prefix_cons.
  - destruct rest as [|s' rest'].
    + simpl. by rewrite child_filter_other.
    + rewrite remove_cons. simpl. by rewrite child_alter_other.
Qed.

(** The directory that held the removed entry keeps its other entries, in
    their order. *)
Lemma lookup_remove_parent (q : list string) (s : string) : ∀ n es,
  lookup n q = Some (Dir es) →
  lookup (remove (q ++ [s]) n) q
  = Some (Dir (List.filter (λ e, negb (has_name s e)) es)).
Proof.
  induction q as [|t q' IH]; intros n es H.
  - simpl in H. by injection H as ->.
  - destruct n as [c|es0]; [done|]. simpl in H.
    destruct (child es0 t) as [c|] eqn:Ec; [|done].
    assert (R : remove ((t :: q') ++ [s]) (Dir es0)
                = Dir (alter_child t (remove (q' ++ [s])) es0))
      by by destruct q'.
    rewrite R. simpl. rewrite child_alter_same, Ec. simpl. by apply IH.
Qed.

Lemma filter_filter_entries (f g : string * node → bool) (es : list (string * node)) :
  List.filter g (List.filter f es) = List.filter (λ e, f e && g e) es.
Proof.
  induction es as [|e es IH]; [done|]. simpl.
  destruct (f e); simpl; [|done]. destruct (g e); by rewrite IH.
Qed.

End FsFacts.

(** ** Asset path policy *)

Example logo_svg :
  determineAssetFilePath {| asset_name := Some "logo.svg"; asset_source := "" |}
  = "images/[name].[hash][extname]".
Proof. reflexivity. Qed.

Example style_css :
  determineAssetFilePath {| asset_name := Some "style.css"; asset_source := "" |}
  = "css/[name].[hash][extname]".
Proof. reflexivity. Qed.

Example font_woff2 :
  determineAssetFilePath {| asset_name := Some "font.woff2"; asset_source := "" |}
  = "fonts/[name].[hash][extname]".
Proof. reflexivity. Qed.

Example data_json :
  determineAssetFilePath {| asset_name := Some "data.json"; asset_source := "" |}
  = "[name].[hash][extname]".
Proof. reflexivity. Qed.

(** The extension must be spelled in lower case, and must come last. *)
Example upper_case_and_inner_extensions :
  determineAssetFilePath {| asset_name := Some "LOGO.PNG"; asset_source := "" |}
  = "[name].[hash][extname]"
  ∧ determineAssetFilePath {| asset_name := Some "main.css.map"; asset_source := "" |}
    = "[name].[hash][extname]".
Proof. split; reflexivity. Qed.

Section HookFacts.
Context `{Runtime}.

(** What the [config] hook returns, field by field. *)
Lemma config_hook_ok (cfg : object) (r : string) (fs : node) (c : UserConfig) :
  config_hook cfg r fs = Ok c →
  ∃ alias srv o inp,
    resolveAliases (Get cfg "aliases") = Ok alias
    ∧ configureServer cfg = Ok srv
    ∧ Get cfg "outDir" = Some (JStr o)
    ∧ findEntryScripts fs r = Ok inp
    ∧ c = {| root := r;
             resolve_alias := alias;
             server := srv;
             build :=
               {| outDir := Path.resolve LUCKY_ROOT [o];
                  sourcemap := negb (test re_env LUCKY_ENV);
                  emptyOutDir := false;
                  manifest := true;
                  rollupOptions :=
                    {| input := inp;
                       output :=
                         {| entryFileNames := "js/[name].[hash].js";
                            chunkFileNames := "js/[name].[hash].js";
                            assetFileNames := determineAssetFilePath |} |} |} |}.
Proof.
  unfold config_hook. intros E.
  destruct (resolveAliases (Get cfg "aliases")) as [alias|]; [|done].
  destruct (configureServer cfg) as [srv|]; [|done].
  destruct (Get cfg "outDir") as [[| | |o| |]|]; try done.
  destruct (findEntryScripts fs r) as [inp|]; [|done].
  simpl in E. injection E as <-. by exists alias, srv, o, inp.
Qed.

End HookFacts.

(** C3. [determineAssetFilePath] classifies a declared name by its
    extension, the first matching rule deciding: an image extension
    ([gif], [jpg], [jpeg], [png], [webp], [avif], [svg]) gives the template
    under [images/], else [css] gives the one under [css/], else [woff] or
    [woff2] the one under [fonts/], and any other name, an absent or empty
    one included, the template without a directory. Entry scripts and
    chunks always get ["js/[name].[hash].js"]: that is what
    [formatAssetFilePath('js', '.js')] evaluates to, what every
    configuration the [config] hook returns carries, and the hook does
    return one whenever the aliases, the server settings, the output
    directory and the entry scripts are obtained without an error. *)
Theorem asset_path_policy :
  (∀ asset : PreRenderedAsset,
     let name := default "" (asset_name asset) in
     let image :=
       ∃ e, e ∈ ["gif"; "jpg"; "jpeg"; "png"; "webp"; "avif"; "svg"]
            ∧ ends_with ("." +:+ e) name in
     let css := ends_with ".css" name in
     let font := ends_with ".woff" name ∨ ends_with ".woff2" name in
     (image → determineAssetFilePath asset = "images/[name].[hash][extname]")
     ∧ (¬ image → css →
        determineAssetFilePath asset = "css/[name].[hash][extname]")
     ∧ (¬ image → ¬ css → font →
        determineAssetFilePath asset = "fonts/[name].[hash][extname]")
     ∧ (¬ image → ¬ css → ¬ font →
        determineAssetFilePath asset = "[name].[hash][extname]"))
  ∧ (∀ source,
       determineAssetFilePath {| asset_name := None; asset_source := source |}
       = "[name].[hash][extname]"
       ∧ determineAssetFilePath {| asset_name := Some ""; asset_source := source |}
         = "[name].[hash][extname]")
  ∧ (∀ (R : Runtime) cfg r fs c,
       config_hook cfg r fs = Ok c →
       let out := output (rollupOptions (build c)) in
       entryFileNames out = "js/[name].[hash].js"
       ∧ chunkFileNames out = "js/[name].[hash].js"
       ∧ assetFileNames out = determineAssetFilePath)
  ∧ (∀ (R : Runtime) cfg r fs alias srv o inp,
       resolveAliases (Get cfg "aliases") = Ok alias →
       configureServer cfg = Ok srv →
       Get cfg "outDir" = Some (JStr o) →
       findEntryScripts fs r = Ok inp →
       ∃ c,
         config_hook cfg r fs = Ok c
         ∧ entryFileNames (output (rollupOptions (build c)))
           = "js/[name].[hash].js"
         ∧ chunkFileNames (output (rollupOptions (build c)))
           = "js/[name].[hash].js"
         ∧ assetFileNames (output (rollupOptions (build c)))
           = determineAssetFilePath)
  ∧ formatAssetFilePath (Some "js") (Some ".js") = "js/[name].[hash].js".
Proof.
  split; [|split; [|split; [|split]]].
  - intros asset name image css font. unfold determineAssetFilePath.
    fold name.
    pose proof (test_re_image name) as Hi.
    pose proof (test_re_css name) as Hc.
    pose proof (test_re_font name) as Hf.
    destruct (test re_image name).
    { split; [done|]. assert image by by apply Hi. by repeat split. }
    assert (¬ image) by (intros ?%Hi; done).
    split; [done|]. destruct (test re_css name).
    { split; [done|]. assert css by by apply Hc. by repeat split. }
    assert (¬ css) by (intros ?%Hc; done).
    split; [done|]. destruct (test re_font name).
    { split; [done|]. assert font by by apply Hf. by repeat split. }
    assert (¬ font) by (intros ?%Hf; done).
    by repeat split.
  - by intros source.
  - intros R cfg r fs c E.
    apply config_hook_ok in E as (alias & srv & o & inp & _ & _ & _ & _ & ->).
    done.
  - intros R cfg r fs alias srv o inp Ha Hs Ho Hi. unfold config_hook.
    rewrite Ha, Hs, Ho, Hi. simpl. eexists. split; [reflexivity|]. done.
  - reflexivity.
Qed.

Lemma asset_path_policy_witness :
  determineAssetFilePath {| asset_name := Some "logo.svg"; asset_source := "" |}
  = "images/[name].[hash][extname]"
  ∧ determineAssetFilePath {| asset_name := Some "style.css"; asset_source := "" |}
    = "css/[name].[hash][extname]"
  ∧ determineAssetFilePath {| asset_name := Some "font.woff2"; asset_source := "" |}
    = "fonts/[name].[hash][extname]"
  ∧ determineAssetFilePath {| asset_name := Some "data.json"; asset_source := "" |}
    = "[name].[hash][extname]"
  ∧ ∃ c,
      @config_hook (node_process None) defaults "/app/src/js/entry" sample_fs
      = Ok c
      ∧ entryFileNames (output (rollupOptions (build c))) = "js/[name].[hash].js"
      ∧ chunkFileNames (output (rollupOptions (build c))) = "js/[name].[hash].js"
      ∧ assetFileNames (output (rollupOptions (build c)))
          {| asset_name := Some "logo.svg"; asset_source := "" |}
        = "images/[name].[hash][extname]".
Proof.
  destruct asset_path_policy as (Hpolicy & _ & Hreturned & Hreturns & _).
  assert (Hi : ∀ name, test re_image name = false →
                 ¬ ∃ e, e ∈ ["gif"; "jpg"; "jpeg"; "png"; "webp"; "avif"; "svg"]
                        ∧ ends_with ("." +:+ e) name).
  { intros name F E%test_re_image. congruence. }
  assert (Hc : ∀ name, test re_css name = false → ¬ ends_with ".css" name).
  { intros name F E%test_re_css. congruence. }
  assert (Hf : ∀ name, test re_font name = false →
                 ¬ (ends_with ".woff" name ∨ ends_with ".woff2" name)).
  { intros name F E%test_re_font. congruence. }
  assert (Hsvg : determineAssetFilePath
                   {| asset_name := Some "logo.svg"; asset_source := "" |}
                 = "images/[name].[hash][extname]").
  { apply (Hpolicy {| asset_name := Some "logo.svg"; asset_source := "" |}).
    exists "svg". split; [|by exists "logo"]. do 6 right. left. }
  split; [|split; [|split; [|split]]].
  - exact Hsvg.
  - apply (Hpolicy {| asset_name := Some "style.css"; asset_source := "" |}).
    + by apply Hi.
    + by exists "style".
  - apply (Hpolicy {| asset_name := Some "font.woff2"; asset_source := "" |}).
    + by apply Hi.
    + by apply Hc.
    + right. by exists "font".
  - apply (Hpolicy {| asset_name := Some "data.json"; asset_source := "" |}).
    + by apply Hi.
    + by apply Hc.
    + by apply Hf.
  - edestruct (Hreturns (node_process None) defaults "/app/src/js/entry" sample_fs)
      as (c & E & _); [reflexivity..|].
    destruct (Hreturned (node_process None) _ _ _ c E) as (He & Hk & Ha).
    exists c. split; [exact E|]. split; [exact He|]. split; [exact Hk|].
    rewrite Ha. exact Hsvg.
Defined.

(** ** Source maps *)

(** C7, as the specification states it, fails: an environment called
    [testing] is neither [development] nor [test], yet gets no source map. *)
Lemma sourcemap_exact_names_refuted :
  ¬ (∀ (R : Runtime) cfg r fs c,
       config_hook cfg r fs = Ok c →
       sourcemap (build c) = true
       ↔ LUCKY_ENV ≠ "development" ∧ LUCKY_ENV ≠ "test").
Proof.
  intros Hclaim.
  pose (R := node_process (Some "testing")).
  destruct (@config_hook R defaults "/app/src/js/entry" sample_fs) as [c|e] eqn:E;
    [|by vm_compute in E].
  pose proof (proj2 (Hclaim R _ _ _ c E)) as Hs.
  apply (@config_hook_ok R) in E as (? & ? & ? & ? & _ & _ & _ & _ & ->).
  by specialize (Hs ltac:(by split)).
Qed.

(** C7, amended. The build configuration enables source maps exactly when
    the value of [LUCKY_ENV] contains neither [test] nor [development] as
    a substring; an unset or empty variable counts as [development]. *)
Theorem sourcemap_policy `{Runtime} (cfg : object) (r : string) (fs : node)
    (c : UserConfig) :
  config_hook cfg r fs = Ok c →
  (sourcemap (build c) = true
   ↔ ¬ contains "test" LUCKY_ENV ∧ ¬ contains "development" LUCKY_ENV)
  ∧ (env_LUCKY_ENV = None ∨ env_LUCKY_ENV = Some "" →
     LUCKY_ENV = "development" ∧ sourcemap (build c) = false)
  ∧ (∀ s, env_LUCKY_ENV = Some s → s ≠ "" → LUCKY_ENV = s).
Proof.
  intros E. apply config_hook_ok in E as (? & ? & ? & ? & _ & _ & _ & _ & ->).
  simpl. split; [|split].
  - rewrite negb_true_iff, <- not_true_iff_false, test_re_env. tauto.
  - unfold LUCKY_ENV. by intros [-> | ->].
  - unfold LUCKY_ENV. intros s -> Hs%String.eqb_neq. by rewrite Hs.
Qed.

Lemma sourcemap_policy_witness :
  ∃ c, @config_hook (node_process (Some "production")) defaults
         "/app/src/js/entry" sample_fs = Ok c
       ∧ sourcemap (build c) = true.
Proof.
  pose (R := node_process (Some "production")).
  destruct (@config_hook R defaults "/app/src/js/entry" sample_fs) as [c|e] eqn:E;
    [|by vm_compute in E].
  exists c. split; [done|].
  apply (proj1 (@sourcemap_policy R _ _ _ c E)).
  assert (F : test re_env (@LUCKY_ENV R) = false) by reflexivity.
  split; intros Hc; rewrite (proj2 (test_re_env _)) in F; auto; done.
Defined.

(** ** The development server *)

Section ServerFacts.
Context `{Runtime}.

(** The default [https = false] changes nothing for the test [https ? ...]. *)
Lemma truthy_https_default (v : jsval) :
  truthy (Some (default (JBool false) v)) = truthy v.
Proof. by destruct v. Qed.

(** [configureServer] succeeds exactly when the resolved origin parses. *)
Lemma configureServer_ok (cfg : object) (sc : ServerConfig) :
  configureServer cfg = Ok sc ↔
  ∃ uri,
    URL_parse
      (ToString_val
         (resolved_origin (Get cfg "https") (resolved_host (Get cfg "host"))
            (Get cfg "port") (Get cfg "origin")))
    = Some uri
    ∧ sc = {| server_origin :=
                resolved_origin (Get cfg "https") (resolved_host (Get cfg "host"))
                  (Get cfg "port") (Get cfg "origin");
              server_host := hostname uri;
              server_port := port uri;
              server_https := String.eqb (protocol uri) "https:" |}.
Proof.
  unfold configureServer, resolved_origin. rewrite truthy_https_default.
  destruct (URL_parse _) as [uri|]; split.
  - intros [= <-]. by exists uri.
  - by intros (? & [= <-] & ->).
  - done.
  - by intros (? & ? & _).
Qed.

Lemma configureServer_simple (cfg : object) (uri : URL) :
  SimpleUrl.parse
    (ToString_val
       (resolved_origin (Get cfg "https") (resolved_host (Get cfg "host"))
          (Get cfg "port") (Get cfg "origin")))
  = Some uri →
  configureServer cfg
  = Ok {| server_origin :=
            resolved_origin (Get cfg "https") (resolved_host (Get cfg "host"))
              (Get cfg "port") (Get cfg "origin");
          server_host := hostname uri;
          server_port := port uri;
          server_https := String.eqb (protocol uri) "https:" |}.
Proof. intros E%URL_parse_simple. apply configureServer_ok. by exists uri. Qed.

End ServerFacts.

(** C4, as the specification states it, fails: an origin supplied as the
    empty string is not returned unchanged but replaced by the synthesized
    one. *)
Lemma supplied_origin_unchanged_refuted :
  ¬ (∀ (R : Runtime) cfg o sc,
       Get cfg "origin" = Some (JStr o) →
       configureServer cfg = Ok sc →
       server_origin sc = Some (JStr o)).
Proof.
  intros Hclaim.
  pose (cfg := {| own := <["origin" := JStr ""]> (own defaults); proto := None |}).
  specialize (Hclaim (node_process None) cfg ""
    {| server_origin := Some (JStr "http://127.0.0.1:3010");
       server_host := "127.0.0.1";
       server_port := "3010";
       server_https := false |}
    eq_refl eq_refl).
  discriminate Hclaim.
Qed.

(** C4, amended. When [origin] is absent or falsy (the empty string, for
    one) the returned origin is ["http://" + host + ":" + port], with
    [https] instead when the [https] flag is truthy; a truthy [origin] is
    returned unchanged, whatever [host], [port] and [https] are. In both
    cases the returned host, port and [https] flag are the hostname, the
    port and the scheme test of that origin parsed as a URL, and the call
    throws when it does not parse. With host ["localhost"], port [3010],
    no [https] and no origin the result is origin
    ["http://localhost:3010"], host ["localhost"], port ["3010"] and
    [https] false. *)
Theorem server_origin_derivation `{Runtime} (cfg : object) :
  (∀ sc, configureServer cfg = Ok sc →
     (truthy (Get cfg "origin") = false →
      server_origin sc
      = Some (JStr ("http" +:+ (if truthy (Get cfg "https") then "s" else "")
                    +:+ "://" +:+ ToString_val (resolved_host (Get cfg "host"))
                    +:+ ":" +:+ ToString_val (Get cfg "port"))))
     ∧ (truthy (Get cfg "origin") = true →
        server_origin sc = Get cfg "origin")
     ∧ ∃ uri, URL_parse (ToString_val (server_origin sc)) = Some uri
              ∧ server_host sc = hostname uri
              ∧ server_port sc = port uri
              ∧ server_https sc = String.eqb (protocol uri) "https:")
  ∧ (URL_parse
       (ToString_val
          (resolved_origin (Get cfg "https") (resolved_host (Get cfg "host"))
             (Get cfg "port") (Get cfg "origin")))
     = None →
     configureServer cfg = Err TypeError)
  ∧ (Get cfg "host" = Some (JStr "localhost") →
     Get cfg "port" = Some (JNum 3010) →
     truthy (Get cfg "https") = false →
     truthy (Get cfg "origin") = false →
     configureServer cfg
     = Ok {| server_origin := Some (JStr "http://localhost:3010");
             server_host := "localhost";
             server_port := "3010";
             server_https := false |}).
Proof.
  split; [|split].
  - intros sc (uri & E & ->)%configureServer_ok. simpl. split; [|split].
    + unfold resolved_origin. by intros ->.
    + unfold resolved_origin. by intros ->.
    + by exists uri.
  - intros E. unfold configureServer, resolved_origin in *.
    rewrite truthy_https_default. by rewrite E.
  - intros Hh Hp Hs Ho.
    rewrite (configureServer_simple cfg
               {| hostname := "localhost"; port := "3010"; protocol := "http:" |});
      unfold resolved_origin; rewrite Hh, Hp, Hs, Ho; reflexivity.
Qed.

Lemma server_origin_derivation_witness :
  @configureServer (node_process None)
    {| own := <["host" := JStr "localhost"]> (own defaults); proto := None |}
  = Ok {| server_origin := Some (JStr "http://localhost:3010");
          server_host := "localhost";
          server_port := "3010";
          server_https := false |}
  ∧ ∀ sc,
      @configureServer (node_process None)
        {| own := <["origin" := JStr "https://assets.example:8443"]> (own defaults);
           proto := None |}
      = Ok sc →
      server_origin sc = Some (JStr "https://assets.example:8443").
Proof.
  split.
  - apply (@server_origin_derivation (node_process None)); reflexivity.
  - intros sc E.
    apply (@server_origin_derivation (node_process None) _) in E as (_ & E & _).
    apply E. reflexivity.
Defined.

(** C8. A [host] that is the boolean [true] is replaced by ["0.0.0.0"]
    before the origin is synthesized, so the synthesized origin is
    ["http://0.0.0.0:<port>"], or ["https://0.0.0.0:<port>"] when [https]
    is set. *)
Theorem host_true_binds_all `{Runtime} (cfg : object) :
  Get cfg "host" = Some (JBool true) →
  resolved_host (Get cfg "host") = Some (JStr "0.0.0.0")
  ∧ (truthy (Get cfg "origin") = false →
     (∀ sc, configureServer cfg = Ok sc →
        server_origin sc
        = Some (JStr ("http" +:+ (if truthy (Get cfg "https") then "s" else "")
                      +:+ "://0.0.0.0:" +:+ ToString_val (Get cfg "port"))))
     ∧ (Get cfg "port" = Some (JNum 3010) →
        configureServer cfg
        = Ok {| server_origin :=
                  Some (JStr (if truthy (Get cfg "https")
                              then "https://0.0.0.0:3010"
                              else "http://0.0.0.0:3010"));
                server_host := "0.0.0.0";
                server_port := "3010";
                server_https := truthy (Get cfg "https") |})).
Proof.
  intros Hh. split; [by rewrite Hh|]. intros Ho. split.
  - intros sc (uri & E & ->)%configureServer_ok. simpl.
    unfold resolved_origin. by rewrite Hh, Ho.
  - intros Hp. destruct (truthy (Get cfg "https")) eqn:Hs.
    + rewrite (configureServer_simple cfg
                 {| hostname := "0.0.0.0"; port := "3010"; protocol := "https:" |});
        unfold resolved_origin; rewrite Hh, Hp, Hs, Ho; reflexivity.
    + rewrite (configureServer_simple cfg
                 {| hostname := "0.0.0.0"; port := "3010"; protocol := "http:" |});
        unfold resolved_origin; rewrite Hh, Hp, Hs, Ho; reflexivity.
Qed.

Lemma host_true_binds_all_witness :
  @configureServer (node_process None)
    {| own := <["host" := JBool true]> (<["https" := JBool true]> (own defaults));
       proto := None |}
  = Ok {| server_origin := Some (JStr "https://0.0.0.0:3010");
          server_host := "0.0.0.0";
          server_port := "3010";
          server_https := true |}.
Proof.
  destruct (@host_true_binds_all (node_process None)
              {| own := <["host" := JBool true]>
                          (<["https" := JBool true]> (own defaults));
                 proto := None |}) as [_ Hsynth]; [reflexivity|].
  destruct Hsynth as [_ Hport]; [reflexivity|]. apply Hport. reflexivity.
Defined.

(** C10. The test is on the type of [host], not on its value: the boolean
    [false] is replaced by ["0.0.0.0"] as well, so [https = false],
    [host = false] and [port = 3010] give the origin
    ["http://0.0.0.0:3010"], neither an error nor a host called
    ["false"]. *)
Theorem host_false_binds_all `{Runtime} (cfg : object) :
  Get cfg "host" = Some (JBool false) →
  resolved_host (Get cfg "host") = Some (JStr "0.0.0.0")
  ∧ (truthy (Get cfg "origin") = false →
     (∀ sc, configureServer cfg = Ok sc →
        server_origin sc
        = Some (JStr ("http" +:+ (if truthy (Get cfg "https") then "s" else "")
                      +:+ "://0.0.0.0:" +:+ ToString_val (Get cfg "port"))))
     ∧ (Get cfg "port" = Some (JNum 3010) →
        truthy (Get cfg "https") = false →
        configureServer cfg
        = Ok {| server_origin := Some (JStr "http://0.0.0.0:3010");
                server_host := "0.0.0.0";
                server_port := "3010";
                server_https := false |})).
Proof.
  intros Hh. split; [by rewrite Hh|]. intros Ho. split.
  - intros sc (uri & E & ->)%configureServer_ok. simpl.
    unfold resolved_origin. by rewrite Hh, Ho.
  - intros Hp Hs.
    rewrite (configureServer_simple cfg
               {| hostname := "0.0.0.0"; port := "3010"; protocol := "http:" |});
      unfold resolved_origin; rewrite Hh, Hp, Hs, Ho; reflexivity.
Qed.

Lemma host_false_binds_all_witness :
  @configureServer (node_process None)
    {| own := <["host" := JBool false]> (<["https" := JBool false]> (own defaults));
       proto := None |}
  = Ok {| server_origin := Some (JStr "http://0.0.0.0:3010");
          server_host := "0.0.0.0";
          server_port := "3010";
          server_https := false |}.
Proof.
  destruct (@host_false_binds_all (node_process None)
              {| own := <["host" := JBool false]>
                          (<["https" := JBool false]> (own defaults));
                 proto := None |}) as [_ Hsynth]; [reflexivity|].
  destruct Hsynth as [_ Hport]; [reflexivity|]. apply Hport; reflexivity.
Defined.

(** ** Aliases *)

(** C6. [resolveAliases] turns a list of short names into one alias per
    name, in the order of the input: the alias of [name] is found as
    ["@" + name] and replaced by [src/<name>] resolved against the working
    directory, an absolute path. An empty or absent list gives no alias
    and no error. *)
Theorem alias_resolver `{Runtime} :
  resolveAliases None = Ok []
  ∧ resolveAliases (Some (JArr [])) = Ok []
  ∧ ∀ names : list string,
      ∃ out,
        resolveAliases (Some (JArr (JStr <$> names))) = Ok out
        ∧ length out = length names
        ∧ find <$> out = (λ name, "@" +:+ name) <$> names
        ∧ ∀ i name,
            names !! i = Some name →
            ∃ a, out !! i = Some a
                 ∧ find a = "@" +:+ name
                 ∧ replacement a = Path.resolve cwd ["src/" +:+ name]
                 ∧ Path.is_absolute (replacement a) = true
                 ∧ (Path.is_name name = true →
                    replacement a
                    = Path.from_components
                        (Path.components cwd ++ ["src"; name])).
Proof.
  split; [done|split; [done|]]. intros names. eexists. split; [done|].
  rewrite !length_fmap. split; [done|]. split.
  - rewrite <- !list_fmap_compose. apply list_fmap_ext. by intros.
  - intros i name Hi. eexists. split.
    + by rewrite <- list_fmap_compose, list_lookup_fmap, Hi.
    + unfold compose, LUCKY_ROOT. cbn [find replacement ToString].
      split; [done|]. split; [done|]. split.
      * destruct (PathFacts.resolve_canonical cwd ["src/" +:+ name] cwd_absolute)
          as [_ ->]. done.
      * intros Hn. by apply PathFacts.resolve_src; [apply cwd_absolute|].
Qed.

Lemma alias_resolver_witness :
  @resolveAliases (node_process None) (Some (JArr [JStr "css"; JStr "js"]))
  = Ok [{| find := "@css"; replacement := "/app/src/css" |};
        {| find := "@js"; replacement := "/app/src/js" |}].
Proof.
  destruct (@alias_resolver (node_process None)) as (_ & _ & Hnames).
  destruct (Hnames ["css"; "js"]) as (out & E & Hlen & _ & Hout).
  change (JStr <$> ["css"; "js"]) with [JStr "css"; JStr "js"] in E.
  rewrite E. clear E.
  destruct (Hout 0%nat "css" eq_refl) as (a0 & H0 & F0 & _ & _ & R0).
  destruct (Hout 1%nat "js" eq_refl) as (a1 & H1 & F1 & _ & _ & R1).
  specialize (R0 eq_refl). specialize (R1 eq_refl).
  destruct out as [|b0 [|b1 [|]]]; try done.
  injection H0 as ->. injection H1 as ->.
  destruct a0, a1. simpl in *. by subst.
Defined.

(** ** Loading the configuration *)

Lemma Set_own_same (o : object) (k : string) (v : json) :
  k ≠ "__proto__" → own (Set_ o k v) !! k = Some v.
Proof.
  intros Hk%String.eqb_neq. unfold Set_. rewrite Hk. simpl.
  apply lookup_insert_eq.
Qed.

Lemma Set_own_other (o : object) (k k' : string) (v : json) :
  k ≠ k' → own (Set_ o k v) !! k' = own o !! k'.
Proof.
  intros Hk. unfold Set_. destruct (String.eqb k "__proto__").
  - by destruct v.
  - simpl. by apply lookup_insert_ne.
Qed.

Lemma assign_props_own (l : list (string * json)) : ∀ (o : object) (k : string),
  NoDup l.*1 → k ≠ "__proto__" →
  own (foldl (λ o kv, Set_ o kv.1 kv.2) o l) !! k
  = match (list_to_map l : gmap string json) !! k with
    | Some v => Some v
    | None => own o !! k
    end.
Proof.
  induction l as [|[k0 v0] l IH]; intros o k Hnd Hk; [done|].
  apply NoDup_cons in Hnd as [Hk0 Hnd]. simpl. rewrite IH by done.
  destruct (decide (k0 = k)) as [->|Hne].
  - rewrite lookup_insert_eq, Set_own_same by done.
    by rewrite (not_elem_of_list_to_map_1 _ _ Hk0).
  - rewrite lookup_insert_ne, Set_own_other by done. done.
Qed.

(** The own properties after [Object.assign(target, src)] for a parsed
    object [src]. *)
Lemma Object_assign_own (target : object) (m : gmap string json) (k : string) :
  k ≠ "__proto__" →
  own (Object_assign target (JObj m)) !! k
  = match m !! k with
    | Some v => Some v
    | None => own target !! k
    end.
Proof.
  intros Hk. unfold Object_assign. simpl.
  rewrite assign_props_own by (done || apply NoDup_fst_map_to_list).
  by rewrite list_to_map_to_list.
Qed.

Lemma Get_own (o : object) (k : string) (v : json) :
  own o !! k = Some v → Get o k = Some v.
Proof. unfold Get. by intros ->. Qed.

(** C1. For a file holding a JSON object, [loadConfig] returns an object
    in which each of [outDir], [entry], [host], [port], [root] and
    [aliases] has the parsed value when the parsed object has that key,
    whole and as parsed, and otherwise its default: ["public"], ["entry"],
    ["127.0.0.1"], [3010], ["src/js"] and [["js","css","images","fonts"]]. *)
Theorem loadConfig_shallow_merge `{Runtime} (fs : node) (path text : string)
    (m : gmap string json) :
  readFileSync fs cwd path = Ok text →
  JSON_parse text = Some (JObj m) →
  ∃ cfg,
    loadConfig fs path = Ok cfg
    ∧ Get cfg "outDir" = Some (default (JStr "public") (m !! "outDir"))
    ∧ Get cfg "entry" = Some (default (JStr "entry") (m !! "entry"))
    ∧ Get cfg "host" = Some (default (JStr "127.0.0.1") (m !! "host"))
    ∧ Get cfg "port" = Some (default (JNum 3010) (m !! "port"))
    ∧ Get cfg "root" = Some (default (JStr "src/js") (m !! "root"))
    ∧ Get cfg "aliases"
      = Some (default (JArr [JStr "js"; JStr "css"; JStr "images"; JStr "fonts"])
                (m !! "aliases")).
Proof.
  intros Hr Hp. unfold loadConfig. rewrite Hr. simpl. rewrite Hp.
  eexists. split; [done|].
  repeat split; apply Get_own; rewrite Object_assign_own by done;
    by destruct (m !! _).
Qed.

Lemma loadConfig_shallow_merge_witness :
  ∃ cfg,
    @loadConfig (node_process None) sample_fs "config/lucky_vite.json" = Ok cfg
    ∧ Get cfg "host" = Some (JStr "localhost")
    ∧ Get cfg "port" = Some (JNum 3010)
    ∧ Get cfg "aliases" = Some (JArr [JStr "js"; JStr "css"]).
Proof.
  destruct (@loadConfig_shallow_merge (node_process None) sample_fs
              "config/lucky_vite.json" sample_json sample_config)
    as (cfg & E & _ & _ & Hh & Hp & _ & Ha).
  - reflexivity.
  - vm_compute. reflexivity.
  - exists cfg. by repeat split.
Defined.

(** C2. When the configuration file does not exist, or holds text that is
    not JSON, the plugin factory throws, which is the error of
    [loadConfig]: a missing file is reported by the read (as [ENOENT], or
    [ENOTDIR] when a component of the path is a file), a malformed one as
    a [SyntaxError]. No plugin object, hence no hook, is returned, and the
    defaults are not used in place of the file. *)
Theorem plugin_requires_config `{Runtime} (fs : node) (options : option PluginConfig) :
  let path := default "config/lucky_vite.json" (options ≫= configPath) in
  existsSync fs cwd path = false
  ∨ (∃ text, readFileSync fs cwd path = Ok text ∧ JSON_parse text = None) →
  ∃ e,
    plugin fs options = Err e
    ∧ loadConfig fs path = Err e
    ∧ (existsSync fs cwd path = false → e = ENOENT ∨ e = ENOTDIR)
    ∧ (existsSync fs cwd path = true → e = SyntaxError).
Proof.
  intros path. unfold plugin, loadConfig, readFileSync, existsSync. fold path.
  intros [Hx|(text & Hr & Hp)].
  - destruct (locate fs cwd path) as [loc|e] eqn:El; [done|].
    exists e. simpl. repeat split; [|done].
    intros _. unfold locate in El.
    destruct (String.eqb path ""); [left; congruence|].
    assert (W : ∀ segs cur, walk fs cur segs = Err e → e = ENOENT ∨ e = ENOTDIR).
    { clear. induction segs as [|s segs IH]; intros cur; simpl; [done|].
      destruct (lookup fs cur) as [[|es]|]; [right; congruence| |left; congruence].
      repeat case_match; eauto; left; congruence. }
    destruct (Path.is_absolute path); eauto.
  - destruct (locate fs cwd path) as [loc|e] eqn:El; [|done]. simpl in *.
    rewrite Hr. simpl. rewrite Hp. exists SyntaxError. by repeat split.
Qed.

Lemma plugin_requires_config_witness :
  (∃ e, @plugin (node_process None) sample_fs
          (Some {| configPath := Some "config/missing.json" |}) = Err e
        ∧ (e = ENOENT ∨ e = ENOTDIR))
  ∧ (∃ e, @plugin (node_process None) sample_fs
            (Some {| configPath := Some "config/broken.json" |}) = Err e
          ∧ e = SyntaxError).
Proof.
  split.
  - destruct (@plugin_requires_config (node_process None) sample_fs
                (Some {| configPath := Some "config/missing.json" |}))
      as (e & E & _ & He & _); [by left|].
    exists e. split; [done|]. by apply He.
  - destruct (@plugin_requires_config (node_process None) sample_fs
                (Some {| configPath := Some "config/broken.json" |}))
      as (e & E & _ & _ & He);
      [right; exists "{ host: "; by split|].
    exists e. split; [done|]. by apply He.
Defined.

(** With the sample file in place the factory returns its plugin object. *)
Example plugin_loads_sample :
  is_ok (@plugin (node_process None) sample_fs None) = true.
Proof. reflexivity. Qed.

(** ** Entry scripts *)

Lemma from_components_snoc_ends (l : list string) (d : string) :
  ends_with ("/" +:+ d) (Path.from_components (l ++ [d])).
Proof.
  unfold Path.from_components. destruct l as [|s l]; [by exists ""|].
  exists ("/" +:+ Path.join_slash (s :: l)).
  by rewrite PathFacts.join_slash_snoc, !append_assoc.
Qed.

Lemma child_elem (es : list (string * node)) (e : string * node) :
  e ∈ es → is_Some (child es e.1).
Proof.
  induction es as [|e' es IH]; [by intros ?%elem_of_nil|].
  rewrite FsFacts.child_cons. intros [->|Hin]%elem_of_cons.
  - unfold has_name. by rewrite String.eqb_refl.
  - destruct (has_name e.1 e'); [done | by apply IH].
Qed.

(** C9. [findEntryScripts] on a root that is a directory returns, entry by
    entry and in the order of the listing, the absolute path of each direct
    child of that directory, whatever its kind and extension; on a root
    that does not exist it throws the error of the listing ([ENOENT], or
    [ENOTDIR] when a component of the root is a file). *)
Theorem entry_scanner `{Runtime} (fs : node) (root : string) :
  let loc := Path.components (Path.resolve cwd [root]) in
  (∀ es,
     lookup fs loc = Some (Dir es) →
     Forall (λ e, Path.is_name e.1 = true) es →
     ∃ paths,
       findEntryScripts fs root = Ok paths
       ∧ paths = (λ e, Path.from_components (loc ++ [e.1])) <$> es
       ∧ Forall2
           (λ p e,
              Path.is_absolute p = true
              ∧ Path.components p = loc ++ [e.1]
              ∧ ends_with ("/" +:+ e.1) p
              ∧ is_Some (lookup fs (Path.components p)))
           paths es)
  ∧ (lookup fs loc = None →
     findEntryScripts fs root = Err ENOENT
     ∨ findEntryScripts fs root = Err ENOTDIR).
Proof.
  intros loc.
  destruct (PathFacts.resolve_canonical cwd [root] cwd_absolute) as [Hloc Hres].
  fold loc in Hloc, Hres.
  pose proof (FsFacts.locate_from_components fs cwd loc Hloc) as Hlocate.
  unfold findEntryScripts, readdirSync. rewrite Hres. split.
  - intros es Hes Hnames. rewrite Hes in Hlocate.
    rewrite Hlocate by eauto. simpl. rewrite Hes. simpl.
    eexists. split; [done|]. split.
    + rewrite <- list_fmap_compose. apply Forall_fmap_ext_1.
      eapply Forall_impl; [exact Hnames|]. intros e He. simpl.
      rewrite PathFacts.resolve_join_entry by (done || apply cwd_absolute).
      rewrite Hres. fold loc.
      by rewrite PathFacts.components_from_components.
    + rewrite <- list_fmap_compose. apply Forall2_fmap_l, Forall_Forall2_diag.
      apply Forall_forall. intros e He. simpl.
      rewrite PathFacts.resolve_join_entry by
        (apply cwd_absolute || by eapply (proj1 (Forall_forall _ _) Hnames)).
      rewrite Hres. fold loc.
      rewrite !PathFacts.components_from_components by done.
      assert (Hall : Forall (λ x, Path.is_name x = true) (loc ++ [e.1])).
      { apply Forall_app_2; [done|]. repeat constructor.
        by eapply (proj1 (Forall_forall _ _) Hnames). }
      rewrite PathFacts.components_from_components by done.
      split; [done|]. split; [done|]. split; [apply from_components_snoc_ends|].
      rewrite FsFacts.lookup_snoc, Hes. by apply child_elem.
  - intros Hnone. rewrite Hnone in Hlocate.
    destruct Hlocate as [-> | ->]; auto.
Qed.

Lemma entry_scanner_witness :
  @findEntryScripts (node_process None) sample_fs "src/js/entry"
  = Ok ["/app/src/js/entry/main.js"; "/app/src/js/entry/admin.js"]
  ∧ (@findEntryScripts (node_process None) sample_fs "src/js/pages" = Err ENOENT
     ∨ @findEntryScripts (node_process None) sample_fs "src/js/pages" = Err ENOTDIR).
Proof.
  split.
  - destruct (proj1 (@entry_scanner (node_process None) sample_fs "src/js/entry")
                [("main.js", File "import '../app'");
                 ("admin.js", File "import '../admin'")])
      as (paths & -> & -> & _); [reflexivity | by repeat constructor |].
    reflexivity.
  - by apply (@entry_scanner (node_process None) sample_fs "src/js/pages").
Defined.

(** ** Cleaning before a build *)

Section CleanFacts.
Context `{Runtime}.
Import Path PathFacts FsFacts.

Variable out : list string.
Hypothesis out_names : Forall (λ x, is_name x = true) out.

(** One round of the loop: an existing directory is removed unless the
    system refuses, an absent one is skipped, and either way the tree has
    lost the entry. *)
Lemma clean_step (d : string) (rest : list string) (fs : node) :
  is_name d = true →
  clean (from_components out) (d :: rest) fs =
  match lookup fs (out ++ [d]) with
  | Some _ =>
      if rm_denied (out ++ [d]) then Err EACCES
      else clean (from_components out) rest (remove (out ++ [d]) fs)
  | None => clean (from_components out) rest fs
  end.
Proof.
  intros Hd. simpl. rewrite join_from_components by done.
  assert (Hall : Forall (λ x, is_name x = true) (out ++ [d]))
    by (apply Forall_app_2; [done | by repeat constructor]).
  pose proof (locate_from_components fs cwd (out ++ [d]) Hall) as L.
  unfold existsSync, rmSync.
  destruct (lookup fs (out ++ [d])).
  - rewrite L by (left; by destruct out). simpl.
    destruct (out ++ [d]) eqn:E; [by destruct out|]. by destruct (rm_denied _).
  - by destruct L as [-> | ->].
Qed.

(** A successful run removes each directory in turn. *)
Lemma clean_ok (dirs : list string) : ∀ fs fs',
  Forall (λ x, is_name x = true) dirs →
  clean (from_components out) dirs fs = Ok fs' →
  fs' = foldl (λ fs d, remove (out ++ [d]) fs) fs dirs.
Proof.
  induction dirs as [|d rest IH]; intros fs fs' Hd E.
  { simpl in E. by injection E as <-. }
  inversion_clear Hd. rewrite clean_step in E by done. simpl.
  destruct (lookup fs (out ++ [d])) eqn:El.
  - destruct (rm_denied (out ++ [d])); [done|]. by apply IH.
  - rewrite remove_absent by done. by apply IH.
Qed.

(** With nothing to remove the run succeeds and leaves the tree alone. *)
Lemma clean_absent (dirs : list string) (fs : node) :
  Forall (λ x, is_name x = true) dirs →
  (∀ d, d ∈ dirs → lookup fs (out ++ [d]) = None) →
  clean (from_components out) dirs fs = Ok fs.
Proof.
  induction dirs as [|d rest IH]; intros Hd Habs; [done|].
  inversion_clear Hd. rewrite clean_step by done.
  rewrite Habs by left. apply IH; [done|]. intros. apply Habs. by right.
Qed.

(** Unless the system refuses a deletion the run succeeds. *)
Lemma clean_permitted (dirs : list string) : ∀ fs,
  Forall (λ x, is_name x = true) dirs →
  (∀ d, d ∈ dirs → rm_denied (out ++ [d]) = false) →
  is_ok (clean (from_components out) dirs fs) = true.
Proof.
  induction dirs as [|d rest IH]; intros fs Hd Hperm; [done|].
  inversion_clear Hd. rewrite clean_step by done.
  assert (Hrest : ∀ d, d ∈ rest → rm_denied (out ++ [d]) = false)
    by (intros; apply Hperm; by right).
  destruct (lookup fs (out ++ [d])); [|by apply IH].
  rewrite Hperm by left. by apply IH.
Qed.

Lemma sibling_incomparable (d d' : string) :
  d ≠ d' → ¬ (out ++ [d]) `prefix_of` (out ++ [d']).
Proof.
  intros Hne [k E]. rewrite <- app_assoc in E.
  apply app_inv_head in E. by injection E.
Qed.

Lemma removed_stays_removed (dirs : list string) (d : string) : ∀ fs,
  lookup fs (out ++ [d]) = None →
  lookup (foldl (λ fs d, remove (out ++ [d]) fs) fs dirs) (out ++ [d]) = None.
Proof.
  induction dirs as [|d' rest IH]; intros fs Hn; [done|]. simpl. apply IH.
  destruct (decide (d' = d)) as [->|Hne].
  - apply lookup_remove_same. by destruct out.
  - rewrite lookup_remove_other; [done|..]; by apply sibling_incomparable.
Qed.

Lemma lookup_after_removals_same (dirs : list string) (d : string) : ∀ fs,
  d ∈ dirs →
  lookup (foldl (λ fs d, remove (out ++ [d]) fs) fs dirs) (out ++ [d]) = None.
Proof.
  induction dirs as [|d' rest IH]; intros fs Hin; [by apply elem_of_nil in Hin|].
  simpl. destruct (decide (d' = d)) as [->|Hne].
  - apply removed_stays_removed, lookup_remove_same. by destruct out.
  - apply IH. by apply elem_of_cons in Hin as [?|?].
Qed.

Lemma lookup_after_removals_other (dirs : list string) (q : list string) : ∀ fs,
  ¬ q `prefix_of` out →
  (∀ d, d ∈ dirs → ¬ (out ++ [d]) `prefix_of` q) →
  lookup (foldl (λ fs d, remove (out ++ [d]) fs) fs dirs) q = lookup fs q.
Proof.
  induction dirs as [|d rest IH]; intros fs Hq Hd; [done|]. simpl.
  rewrite IH; [|done|intros; apply Hd; by right].
  apply lookup_remove_other; [apply Hd; by left|].
  intros [k E]. destruct k as [|x k] using rev_ind.
  - rewrite app_nil_r in E. subst q. apply (Hd d); [by left|done].
  - rewrite app_assoc in E. apply app_inj_tail in E as [-> _].
    apply Hq. by exists k.
Qed.

Lemma lookup_after_removals_parent (dirs : list string) : ∀ fs es,
  lookup fs out = Some (Dir es) →
  lookup (foldl (λ fs d, remove (out ++ [d]) fs) fs dirs) out
  = Some (Dir (List.filter (λ e, negb (bool_decide (e.1 ∈ dirs))) es)).
Proof.
  induction dirs as [|d rest IH]; intros fs es Hes.
  - simpl. rewrite Hes. f_equal. f_equal. clear.
    induction es as [|e es IHes]; simpl; [done | by f_equal].
  - simpl. erewrite IH by by apply lookup_remove_parent.
    rewrite filter_filter_entries. f_equal. f_equal.
    apply List.filter_ext. intros e.
    unfold has_name. destruct (String.eqb_spec e.1 d) as [->|Hne]; simpl.
    + by rewrite bool_decide_eq_true_2 by left.
    + apply f_equal, bool_decide_ext. rewrite elem_of_cons.
      split; [auto|]. by intros [?|?].
Qed.

End CleanFacts.

Lemma dirsToClean_names : Forall (λ x, Path.is_name x = true) dirsToClean.
Proof. by repeat constructor. Qed.

(** C5. The [buildStart] hook removes exactly the entries [js], [css],
    [images], [fonts] and [.vite] of the output directory: after a run that
    did not throw they are gone, the output directory lists its other
    entries as before, and every place of the file system outside the five
    is as it was. A directory that is already absent is skipped, so the
    hook succeeds and changes nothing when none of the five exists; in
    particular a second run right after a first succeeds and is a no-op. *)
Theorem build_start_cleanup `{Runtime} (cfg : object) (outDir : string) (fs : node) :
  Get cfg "outDir" = Some (JStr outDir) →
  let out := Path.components (Path.resolve cwd [outDir]) in
  (∀ fs',
     buildStart_hook cfg fs = Ok fs' →
     (∀ d, d ∈ dirsToClean → lookup fs' (out ++ [d]) = None)
     ∧ (∀ es, lookup fs out = Some (Dir es) →
          lookup fs' out
          = Some (Dir (List.filter
                         (λ e, negb (bool_decide (e.1 ∈ dirsToClean))) es)))
     ∧ (∀ q, ¬ q `prefix_of` out →
          (∀ d, d ∈ dirsToClean → ¬ (out ++ [d]) `prefix_of` q) →
          lookup fs' q = lookup fs q)
     ∧ buildStart_hook cfg fs' = Ok fs')
  ∧ ((∀ d, d ∈ dirsToClean → lookup fs (out ++ [d]) = None) →
     buildStart_hook cfg fs = Ok fs)
  ∧ ((∀ d, d ∈ dirsToClean → rm_denied (out ++ [d]) = false) →
     is_ok (buildStart_hook cfg fs) = true).
Proof.
  intros Hcfg out.
  destruct (PathFacts.resolve_canonical cwd [outDir] cwd_absolute) as [Hout Hres].
  fold out in Hout, Hres.
  assert (Hhook : ∀ fs0, buildStart_hook cfg fs0
                         = clean (Path.from_components out) dirsToClean fs0).
  { intros fs0. unfold buildStart_hook, LUCKY_ROOT. rewrite Hcfg. simpl.
    by rewrite Hres. }
  rewrite !Hhook. split; [|split].
  - intros fs' E. apply clean_ok in E; [|done|apply dirsToClean_names].
    assert (Hgone : ∀ d, d ∈ dirsToClean → lookup fs' (out ++ [d]) = None)
      by (intros d Hd; subst fs'; by apply lookup_after_removals_same).
    split; [done|]. split; [|split].
    + intros es Hes. subst fs'. by apply lookup_after_removals_parent.
    + intros q Hq Hd. subst fs'. by apply lookup_after_removals_other.
    + rewrite Hhook. apply clean_absent; [done|apply dirsToClean_names|done].
  - intros Habs. apply clean_absent; [done|apply dirsToClean_names|done].
  - intros Hperm. apply clean_permitted; [done|apply dirsToClean_names|done].
Qed.

Lemma build_start_cleanup_witness :
  ∃ fs',
    @buildStart_hook (node_process None) defaults sample_fs = Ok fs'
    ∧ lookup fs' ["app"; "public"; "js"] = None
    ∧ lookup fs' ["app"; "public"]
      = Some (Dir [("favicon.ico", File ""); ("robots.txt", File "")])
    ∧ lookup fs' ["app"; "src"] = lookup sample_fs ["app"; "src"]
    ∧ @buildStart_hook (node_process None) defaults fs' = Ok fs'.
Proof.
  pose (R := node_process None).
  destruct (@buildStart_hook R defaults sample_fs) as [fs'|e] eqn:E;
    [|by vm_compute in E].
  destruct (@build_start_cleanup R defaults "public" sample_fs eq_refl)
    as (Hrun & _ & _).
  destruct (Hrun fs' E) as (Hgone & Hkeep & Hother & Hagain).
  exists fs'. split; [done|]. split; [|split; [|split]].
  - apply (Hgone "js"). by left.
  - apply (Hkeep
      [("favicon.ico", File "");
       ("js", Dir [("main.abc123.js", File "")]);
       ("css", Dir [("main.def456.css", File "")]);
       (".vite", Dir [("manifest.json", File "{}")]);
       ("robots.txt", File "")]). reflexivity.
  - apply Hother.
    + by intros [k Hk].
    + intros d _ [k Hk]. by vm_compute in Hk.
  - exact Hagain.
Defined.

(** * Further properties *)

(** ** Asset rules do not overlap *)

Lemma ends_with_exclusive (w1 w2 s : string) :
  bool_decide (chars w1 `suffix_of` chars w2) = false →
  bool_decide (chars w2 `suffix_of` chars w1) = false →
  ends_with w1 s → ends_with w2 s → False.
Proof.
  intros N1%bool_decide_eq_false N2%bool_decide_eq_false
    H1%ends_with_chars H2%ends_with_chars.
  destruct (suffix_weak_total _ _ _ H1 H2); auto.
Qed.

(** X1. No name matches two of the three extension rules of
    [determineAssetFilePath], so the order of the rules is immaterial: a
    name ending in [.css] always gets the [css/] template and a name ending
    in [.woff] or [.woff2] always the [fonts/] one. *)
Theorem asset_rules_disjoint (asset : PreRenderedAsset) :
  let name := default "" (asset_name asset) in
  (test re_image name && test re_css name = false)
  ∧ (test re_image name && test re_font name = false)
  ∧ (test re_css name && test re_font name = false)
  ∧ (ends_with ".css" name →
     determineAssetFilePath asset = "css/[name].[hash][extname]")
  ∧ (ends_with ".woff" name ∨ ends_with ".woff2" name →
     determineAssetFilePath asset = "fonts/[name].[hash][extname]").
Proof.
  intros name.
  assert (Hic : test re_image name = true → test re_css name = true → False).
  { intros (e & He & Hi)%test_re_image Hc%test_re_css.
    repeat (apply elem_of_cons in He as [->|He]);
      [..|by apply elem_of_nil in He];
      by eapply (ends_with_exclusive _ _ name); [..|exact Hi|exact Hc]. }
  assert (Hif : test re_image name = true → test re_font name = true → False).
  { intros (e & He & Hi)%test_re_image [Hf|Hf]%test_re_font;
    repeat (apply elem_of_cons in He as [->|He]);
      try (by apply elem_of_nil in He);
      by eapply (ends_with_exclusive _ _ name); [..|exact Hi|exact Hf]. }
  assert (Hcf : test re_css name = true → test re_font name = true → False).
  { intros Hc%test_re_css [Hf|Hf]%test_re_font;
      by eapply (ends_with_exclusive _ _ name); [..|exact Hc|exact Hf]. }
  unfold determineAssetFilePath. fold name.
  pose proof (test_re_css name) as Tc. pose proof (test_re_font name) as Tf.
  destruct (test re_image name), (test re_css name), (test re_font name);
    try (by destruct Hic); try (by destruct Hif); try (by destruct Hcf);
    repeat split; try done.
  all: try (intros Hc; apply Tc in Hc; done).
  all: try (intros Hf; apply Tf in Hf; done).
Qed.

Lemma asset_rules_disjoint_witness :
  determineAssetFilePath {| asset_name := Some "theme.min.css"; asset_source := "" |}
  = "css/[name].[hash][extname]"
  ∧ determineAssetFilePath {| asset_name := Some "inter.woff"; asset_source := "" |}
    = "fonts/[name].[hash][extname]".
Proof.
  split.
  - apply (asset_rules_disjoint
             {| asset_name := Some "theme.min.css"; asset_source := "" |}).
    by exists "theme.min".
  - apply (asset_rules_disjoint
             {| asset_name := Some "inter.woff"; asset_source := "" |}).
    left. by exists "inter".
Defined.

(** ** More on loading the configuration *)

Lemma pretty_N_char_digit (x : N) : SimpleUrl.is_digit (pretty_N_char x) = true.
Proof. unfold pretty_N_char. by repeat case_match. Qed.

Lemma pretty_N_go_digit (x : N) : ∀ s,
  (0 < x)%N → index_like (pretty_N_go x s) = true.
Proof.
  induction (N.lt_wf_0 x) as [x _ IH]; intros s Hx.
  rewrite pretty_N_go_step by done.
  destruct (decide (x `div` 10 = 0)%N) as [->|Hne].
  - rewrite pretty_N_go_0. simpl. apply pretty_N_char_digit.
  - apply IH; [by apply N.div_lt|]. by apply N.neq_0_lt_0.
Qed.

Lemma pretty_nat_index_like (i : nat) : index_like (pretty i) = true.
Proof.
  unfold pretty, pretty_nat, pretty, pretty_N.
  case_decide; [done|]. apply pretty_N_go_digit. lia.
Qed.

Lemma index_props_keys (l : list json) : ∀ i,
  Forall (λ kv, index_like kv.1 = true) (index_props i l).
Proof.
  induction l as [|x l IH]; intros i; simpl; [done|].
  constructor; [apply pretty_nat_index_like | apply IH].
Qed.

Lemma char_props_keys (s : string) : ∀ i,
  Forall (λ kv, index_like kv.1 = true) (char_props i s).
Proof.
  induction s as [|c s IH]; intros i; simpl; [done|].
  constructor; [apply pretty_nat_index_like | apply IH].
Qed.

(** The properties of a source that is not a parsed object are indexed. *)
Lemma own_props_keys (v : json) :
  (∀ m, v ≠ JObj m) → Forall (λ kv, index_like kv.1 = true) (own_props v).
Proof.
  destruct v; simpl; intros Hv; try done.
  - apply char_props_keys.
  - apply index_props_keys.
  - by destruct (Hv m).
Qed.

Lemma Set_proto_other (o : object) (k : string) (v : json) :
  k ≠ "__proto__" → proto (Set_ o k v) = proto o.
Proof. intros Hk%String.eqb_neq. unfold Set_. by rewrite Hk. Qed.

Lemma Set_own_proto_key (o : object) (k : string) (v : json) :
  own (Set_ o k v) !! "__proto__" = own o !! "__proto__".
Proof.
  unfold Set_. destruct (String.eqb_spec k "__proto__") as [->|Hne].
  - by destruct v.
  - simpl. by apply lookup_insert_ne.
Qed.

(** An assignment whose keys all differ from [k] leaves [k] alone. *)
Lemma assign_props_other (l : list (string * json)) : ∀ (o : object) (k : string),
  Forall (λ kv, kv.1 ≠ k) l →
  own (foldl (λ o kv, Set_ o kv.1 kv.2) o l) !! k = own o !! k.
Proof.
  induction l as [|[k0 v0] l IH]; intros o k Hl; [done|].
  inversion_clear Hl. simpl. rewrite IH by done. by apply Set_own_other.
Qed.

Lemma assign_props_proto_other (l : list (string * json)) : ∀ o : object,
  Forall (λ kv, kv.1 ≠ "__proto__") l →
  proto (foldl (λ o kv, Set_ o kv.1 kv.2) o l) = proto o.
Proof.
  induction l as [|[k0 v0] l IH]; intros o Hl; [done|].
  inversion_clear Hl. simpl. rewrite IH by done. by apply Set_proto_other.
Qed.

Lemma assign_props_own_proto_key (l : list (string * json)) : ∀ o : object,
  own (foldl (λ o kv, Set_ o kv.1 kv.2) o l) !! "__proto__"
  = own o !! "__proto__".
Proof.
  induction l as [|[k0 v0] l IH]; intros o; [done|].
  simpl. rewrite IH. apply Set_own_proto_key.
Qed.

(** The prototype after [Object.assign(target, src)] for a parsed object
    [src]: the value of its [__proto__] key when that is an object, an
    array or [null]. *)
Lemma assign_props_proto (l : list (string * json)) : ∀ o : object,
  NoDup l.*1 →
  proto (foldl (λ o kv, Set_ o kv.1 kv.2) o l)
  = match (list_to_map l : gmap string json) !! "__proto__" with
    | Some (JNull as v) | Some (JArr _ as v) | Some (JObj _ as v) => Some v
    | _ => proto o
    end.
Proof.
  induction l as [|[k0 v0] l IH]; intros o Hnd; [done|].
  apply NoDup_cons in Hnd as [Hk0 Hnd]. simpl. rewrite IH by done.
  destruct (decide (k0 = "__proto__")) as [->|Hne].
  - rewrite lookup_insert_eq, (not_elem_of_list_to_map_1 _ _ Hk0).
    unfold Set_. simpl. by destruct v0.
  - rewrite lookup_insert_ne, Set_proto_other by done. done.
Qed.

Lemma Object_assign_proto (target : object) (m : gmap string json) :
  proto (Object_assign target (JObj m))
  = match m !! "__proto__" with
    | Some (JNull as v) | Some (JArr _ as v) | Some (JObj _ as v) => Some v
    | _ => proto target
    end.
Proof.
  unfold Object_assign. simpl.
  rewrite assign_props_proto by apply NoDup_fst_map_to_list.
  by rewrite list_to_map_to_list.
Qed.

Section LoadFacts.
Context `{Runtime}.

Lemma loadConfig_ok (fs : node) (path text : string) (v : json) :
  readFileSync fs cwd path = Ok text → JSON_parse text = Some v →
  loadConfig fs path = Ok (Object_assign defaults v).
Proof. intros Hr Hp. unfold loadConfig. rewrite Hr. simpl. by rewrite Hp. Qed.

Lemma loadConfig_inv (fs : node) (path : string) (cfg : object) :
  loadConfig fs path = Ok cfg →
  ∃ text v, readFileSync fs cwd path = Ok text ∧ JSON_parse text = Some v
            ∧ cfg = Object_assign defaults v.
Proof.
  unfold loadConfig. destruct (readFileSync fs cwd path) as [text|]; [|done].
  simpl. destruct (JSON_parse text) as [v|] eqn:E; [|done].
  intros [= <-]. by exists text, v.
Qed.

End LoadFacts.

(** X2. A configuration file whose JSON text is not an object is accepted
    all the same. For [null], a boolean or a number the result is exactly
    the defaults; for a string or an array only indexed properties are
    added, so every key that does not start with a digit, the six
    defaulted ones included, reads as in the defaults. *)
Theorem loadConfig_non_object `{Runtime} (fs : node) (path text : string) (v : json) :
  readFileSync fs cwd path = Ok text →
  JSON_parse text = Some v →
  (∀ m, v ≠ JObj m) →
  ∃ cfg,
    loadConfig fs path = Ok cfg
    ∧ (∀ k, index_like k = false → Get cfg k = Get defaults k)
    ∧ ((∀ s, v ≠ JStr s) → (∀ l, v ≠ JArr l) → cfg = defaults).
Proof.
  intros Hr Hp Hv. eexists. split; [by eapply loadConfig_ok|]. split.
  - intros k Hk. pose proof (own_props_keys v Hv) as Hkeys.
    unfold Get, Object_assign.
    rewrite assign_props_other, assign_props_proto_other; [done|..].
    + eapply Forall_impl; [exact Hkeys|]. intros kv Hd E.
      simpl in Hd. by rewrite E in Hd.
    + eapply Forall_impl; [exact Hkeys|]. intros kv Hd E.
      simpl in Hd. rewrite E in Hd. congruence.
  - intros Hs Hl. destruct v; try done.
    + by destruct (Hs s).
    + by destruct (Hl l).
    + by destruct (Hv m).
Qed.

Lemma loadConfig_non_object_witness :
  @loadConfig (node_process None) odd_fs "config/lucky_vite.json" = Ok defaults
  ∧ ∃ cfg,
      @loadConfig (node_process None) odd_fs "config/list.json" = Ok cfg
      ∧ Get cfg "port" = Some (JNum 3010)
      ∧ Get cfg "1" = Some (JNum 2).
Proof.
  split.
  - destruct (@loadConfig_non_object (node_process None) odd_fs
                "config/lucky_vite.json" "null" JNull)
      as (cfg & E & _ & Hd); [reflexivity|reflexivity|done|].
    by rewrite E, Hd.
  - destruct (@loadConfig_non_object (node_process None) odd_fs
                "config/list.json" "[1, 2]" (JArr [JNum 1; JNum 2]))
      as (cfg & E & Hk & _); [reflexivity|reflexivity|done|].
    exists cfg. split; [done|]. split.
    + by rewrite Hk.
    + apply (@loadConfig_inv (node_process None)) in E as (text & v & Hr & Hp & ->).
      injection Hr as <-. injection Hp as <-. reflexivity.
Defined.

(** X3. Every key of the configuration file other than [__proto__] is read
    back from the loaded configuration with the value of the file; this
    holds for keys without a default, as [https] and [origin], too. A key
    the file lacks reads as in the defaults, hence is [undefined] for
    those, unless the file has a [__proto__] key. *)
Theorem loadConfig_pass_through `{Runtime} (fs : node) (path text : string)
    (m : gmap string json) :
  readFileSync fs cwd path = Ok text →
  JSON_parse text = Some (JObj m) →
  ∃ cfg,
    loadConfig fs path = Ok cfg
    ∧ (∀ k v, k ≠ "__proto__" → m !! k = Some v → Get cfg k = Some v)
    ∧ (m !! "__proto__" = None →
       ∀ k, m !! k = None → Get cfg k = Get defaults k).
Proof.
  intros Hr Hp. eexists. split; [by eapply loadConfig_ok|]. split.
  - intros k v Hk Hm. apply Get_own. by rewrite Object_assign_own, Hm.
  - intros Hproto k Hm. unfold Get. rewrite Object_assign_proto, Hproto.
    destruct (decide (k = "__proto__")) as [->|Hk].
    + unfold Object_assign. by rewrite assign_props_own_proto_key.
    + by rewrite Object_assign_own, Hm.
Qed.

Lemma loadConfig_pass_through_witness :
  ∃ cfg,
    @loadConfig (node_process None) sample_fs "config/lucky_vite.json" = Ok cfg
    ∧ Get cfg "https" = Some (JBool false)
    ∧ Get cfg "origin" = None.
Proof.
  destruct (@loadConfig_pass_through (node_process None) sample_fs
              "config/lucky_vite.json" sample_json sample_config)
    as (cfg & E & Hin & Hout); [reflexivity|by vm_compute|].
  exists cfg. split; [done|]. split.
  - by apply Hin.
  - by rewrite Hout.
Defined.

(** X4. The key [__proto__] of a configuration file never becomes a
    property of the loaded configuration. When its value is an object it
    becomes the prototype instead: a key that neither the file nor the
    defaults define is then read from that object. *)
Theorem loadConfig_proto_key `{Runtime} (fs : node) (path : string) (cfg : object) :
  loadConfig fs path = Ok cfg →
  own cfg !! "__proto__" = None
  ∧ ∀ text m p,
      readFileSync fs cwd path = Ok text →
      JSON_parse text = Some (JObj m) →
      m !! "__proto__" = Some (JObj p) →
      ∀ k, k ≠ "__proto__" → m !! k = None → own defaults !! k = None →
           Get cfg k = p !! k.
Proof.
  intros (text & v & Hr & Hp & ->)%loadConfig_inv. split.
  - unfold Object_assign. by rewrite assign_props_own_proto_key.
  - intros text' m p Hr' Hp' Hproto k Hk Hm Hd.
    rewrite Hr in Hr'. injection Hr' as <-.
    rewrite Hp in Hp'. injection Hp' as ->.
    unfold Get. by rewrite Object_assign_own, Hm, Hd, Object_assign_proto, Hproto.
Qed.

Lemma loadConfig_proto_key_witness :
  ∃ cfg,
    @loadConfig (node_process None) odd_fs "config/proto.json" = Ok cfg
    ∧ own cfg !! "__proto__" = None
    ∧ Get cfg "origin" = Some (JStr "https://cdn.example:8443").
Proof.
  pose (R := node_process None).
  destruct (@loadConfig R odd_fs "config/proto.json") as [cfg|e] eqn:E;
    [|by vm_compute in E].
  destruct (@loadConfig_proto_key R odd_fs "config/proto.json" cfg E)
    as [Hown Hget].
  exists cfg. split; [done|]. split; [done|].
  rewrite (Hget proto_json proto_config
             (<["origin" := JStr "https://cdn.example:8443"]> ∅));
    done.
Defined.

(** ** More on scanning the entry directory *)

Section ScanFacts.
Context `{Runtime}.

(** Listing a resolved path: what is there decides the outcome. *)
Lemma readdirSync_resolved (fs : node) (root : string) :
  match lookup fs (Path.components (Path.resolve cwd [root])) with
  | Some (Dir es) => readdirSync fs cwd (Path.resolve cwd [root]) = Ok es.*1
  | Some (File _) => readdirSync fs cwd (Path.resolve cwd [root]) = Err ENOTDIR
  | None =>
      readdirSync fs cwd (Path.resolve cwd [root]) = Err ENOENT
      ∨ readdirSync fs cwd (Path.resolve cwd [root]) = Err ENOTDIR
  end.
Proof.
  destruct (PathFacts.resolve_canonical cwd [root] cwd_absolute) as [Hloc Hres].
  remember (Path.components (Path.resolve cwd [root])) as loc eqn:Eloc.
  clear Eloc.
  pose proof (FsFacts.locate_from_components fs cwd loc Hloc) as L.
  unfold readdirSync. rewrite Hres. clear Hres.
  destruct (lookup fs loc) as [[c|es]|] eqn:El.
  - destruct loc as [|s t].
    + simpl in El. injection El as ->. reflexivity.
    + rewrite L by by left. unfold mbind, result_bind. by rewrite El.
  - rewrite L by eauto. unfold mbind, result_bind. by rewrite El.
  - by destruct L as [-> | ->]; [left|right].
Qed.

Lemma findEntryScripts_inv (fs : node) (root : string) (paths : list string) :
  findEntryScripts fs root = Ok paths →
  ∃ es,
    lookup fs (Path.components (Path.resolve cwd [root])) = Some (Dir es)
    ∧ paths = (λ entry, Path.resolve cwd [Path.join [root; entry]]) <$> es.*1.
Proof.
  unfold findEntryScripts. pose proof (readdirSync_resolved fs root) as R.
  destruct (lookup fs _) as [[c|es]|].
  - by rewrite R.
  - rewrite R. simpl. intros [= <-]. by exists es.
  - by destruct R as [-> | ->].
Qed.

(** The scan reads the file system at the entry root only. *)
Lemma findEntryScripts_frame (fs1 fs2 : node) (root : string) :
  lookup fs1 (Path.components (Path.resolve cwd [root]))
  = lookup fs2 (Path.components (Path.resolve cwd [root])) →
  is_Some (lookup fs1 (Path.components (Path.resolve cwd [root]))) →
  findEntryScripts fs1 root = findEntryScripts fs2 root.
Proof.
  intros E [n Hn]. unfold findEntryScripts.
  pose proof (readdirSync_resolved fs1 root) as R1.
  pose proof (readdirSync_resolved fs2 root) as R2.
  rewrite <- E, Hn in R2. rewrite Hn in R1.
  destruct n; by rewrite R1, R2.
Qed.

End ScanFacts.



(** X6. The [config] hook reads the file system at the entry root only:
    on two file systems that hold the same node there, it returns the
    same configuration. *)
Theorem config_hook_frame `{Runtime} (cfg : object) (r : string) (fs1 fs2 : node) :
  let loc := Path.components (Path.resolve cwd [r]) in
  lookup fs1 loc = lookup fs2 loc →
  is_Some (lookup fs1 loc) →
  config_hook cfg r fs1 = config_hook cfg r fs2.
Proof.
  intros loc E Hsome. unfold config_hook.
  by rewrite (findEntryScripts_frame fs1 fs2 r E Hsome).
Qed.

Lemma config_hook_frame_witness :
  @config_hook (node_process None) defaults "/app/src/js/entry" sample_fs
  = @config_hook (node_process None) defaults "/app/src/js/entry"
      (Dir [("app",
             Dir [("src",
                   Dir [("js",
                         Dir [("entry",
                               Dir [("main.js", File "import '../app'");
                                    ("admin.js", File "import '../admin'")])])])])]).
Proof.
  apply (@config_hook_frame (node_process None)); [reflexivity|].
  by eexists.
Defined.

(** ** More on the plugin factory *)

Section FactoryFacts.
Context `{Runtime}.

Lemma plugin_inv (fs : node) (options : option PluginConfig) (p : Plugin) :
  plugin fs options = Ok p →
  ∃ cfg r e,
    loadConfig fs (default "config/lucky_vite.json" (options ≫= configPath))
    = Ok cfg
    ∧ Get cfg "root" = Some (JStr r)
    ∧ Get cfg "entry" = Some (JStr e)
    ∧ p = {| name := "vite-plugin-lucky";
             config := config_hook cfg (Path.join [cwd; r; e]);
             buildStart := buildStart_hook cfg |}.
Proof.
  unfold plugin. destruct (loadConfig fs _) as [cfg|]; [|done]. simpl.
  destruct (Get cfg "root") as [[| | |r| |]|] eqn:Er; try done. simpl.
  destruct (Get cfg "entry") as [[| | |e| |]|] eqn:Ee; try done. simpl.
  intros [= <-]. by exists cfg, r, e.
Qed.

(** A path joined to an absolute one is absolute. *)
Lemma join_absolute (first : string) (rest : list string) :
  Path.is_absolute first = true → Path.is_absolute (Path.join (first :: rest)) = true.
Proof.
  intros Ha. assert (Hne : first ≠ "") by by destruct first.
  unfold Path.join.
  assert (Hf : List.filter (λ a, negb (String.eqb a "")) (first :: rest)
               = first :: List.filter (λ a, negb (String.eqb a "")) rest).
  { simpl. by rewrite (proj2 (String.eqb_neq _ _) Hne). }
  rewrite Hf. clear Hf. set (parts := List.filter _ rest). cbv iota.
  assert (Hx : Path.is_absolute (Path.join_slash (first :: parts)) = true).
  { destruct parts; [done|].
    change (Path.join_slash (first :: s :: parts))
      with (first +:+ String "/" (Path.join_slash (s :: parts))).
    by rewrite PathFacts.is_absolute_app. }
  revert Hx. generalize (Path.join_slash (first :: parts)). intros x Hx.
  unfold Path.normalize. rewrite Hx.
  destruct (String.eqb_spec x "") as [->|_]; [done|].
  cbv zeta. by destruct (String.eqb _ "").
Qed.

Lemma components_resolve_absolute (p : string) :
  Path.is_absolute p = true →
  Path.components (Path.resolve cwd [p]) = Path.components p.
Proof.
  intros Ha. rewrite PathFacts.components_resolve_one by apply cwd_absolute.
  unfold Path.resolve_input. rewrite Ha.
  by destruct p.
Qed.

End FactoryFacts.

(** X7. For a configuration file holding a JSON object the factory
    returns a plugin object exactly when [root] and [entry], where the
    file gives them, are strings; any other value makes it throw a
    [TypeError] before a hook exists. *)
Theorem plugin_init_outcome `{Runtime} (fs : node) (options : option PluginConfig)
    (text : string) (m : gmap string json) :
  let path := default "config/lucky_vite.json" (options ≫= configPath) in
  let is_string k := ∀ v, m !! k = Some v → ∃ s, v = JStr s in
  readFileSync fs cwd path = Ok text →
  JSON_parse text = Some (JObj m) →
  (is_string "root" ∧ is_string "entry" →
   ∃ p, plugin fs options = Ok p ∧ name p = "vite-plugin-lucky")
  ∧ (¬ (is_string "root" ∧ is_string "entry") →
     plugin fs options = Err TypeError).
Proof.
  intros path is_string Hr Hp. unfold plugin. fold path.
  rewrite (loadConfig_ok fs path text (JObj m) Hr Hp). simpl.
  assert (Hg : ∀ k, k ≠ "__proto__" → is_Some (own defaults !! k) →
                 Get (Object_assign defaults (JObj m)) k
                 = match m !! k with
                   | Some v => Some v
                   | None => own defaults !! k
                   end).
  { intros k Hk [d Hd]. unfold Get. rewrite Object_assign_own by done.
    destruct (m !! k); [done|]. by rewrite Hd. }
  rewrite !Hg by (done || by eexists). unfold is_string.
  destruct (m !! "root") as [vr|] eqn:Er, (m !! "entry") as [ve|] eqn:Ee.
  all: split.
  all: try (intros [Hroot Hentry]).
  all: try (destruct (Hroot _ eq_refl) as [? ->]).
  all: try (destruct (Hentry _ eq_refl) as [? ->]).
  all: try (simpl; by eexists).
  all: intros Hnot.
  all: try (destruct vr; simpl; try done).
  all: try (destruct ve; simpl; try done).
  all: destruct Hnot; split; intros v [= <-] || intros v ?; by eauto.
Qed.

Lemma plugin_init_outcome_witness :
  @plugin (node_process None) odd_fs
    (Some {| configPath := Some "config/bad_root.json" |})
  = Err TypeError.
Proof.
  apply (@plugin_init_outcome (node_process None) odd_fs
           (Some {| configPath := Some "config/bad_root.json" |})
           bad_root_json (<["root" := JNum 5]> ∅));
    [reflexivity | by vm_compute |].
  intros [Hroot _]. by destruct (Hroot (JNum 5) eq_refl).
Defined.

(** X8. The root a plugin object reports is an absolute path, whatever
    [root] and [entry] say, and the build inputs are as many as the entries
    of the directory at that root; when the entries have proper names each
    input is the path of an entry directly below the root. *)
Theorem plugin_root_and_inputs `{Runtime} (fs0 fs : node)
    (options : option PluginConfig) (p : Plugin) (c : UserConfig) :
  plugin fs0 options = Ok p →
  config p fs = Ok c →
  Path.is_absolute (root c) = true
  ∧ ∃ es,
      lookup fs (Path.components (root c)) = Some (Dir es)
      ∧ length (input (rollupOptions (build c))) = length es
      ∧ (Forall (λ e, Path.is_name e.1 = true) es →
         input (rollupOptions (build c))
         = (λ e, Path.from_components (Path.components (root c) ++ [e.1]))
           <$> es).
Proof.
  intros (cfg & r & e & _ & _ & _ & ->)%plugin_inv. simpl.
  intros (alias & srv & o & inp & _ & _ & _ & Hscan & ->)%config_hook_ok.
  simpl. set (rt := Path.join [cwd; r; e]) in *.
  assert (Habs : Path.is_absolute rt = true)
    by apply join_absolute, cwd_absolute.
  split; [done|].
  apply findEntryScripts_inv in Hscan as (es & Hes & ->).
  rewrite components_resolve_absolute in Hes by done.
  exists es. split; [done|]. split; [by rewrite !length_fmap|].
  intros Hnames. rewrite <- list_fmap_compose. apply Forall_fmap_ext_1.
  eapply Forall_impl; [exact Hnames|]. intros x Hx. simpl.
  rewrite PathFacts.resolve_join_entry by (done || apply cwd_absolute).
  by rewrite components_resolve_absolute.
Qed.

Lemma plugin_root_and_inputs_witness :
  ∃ p c,
    @plugin (node_process None) sample_fs None = Ok p
    ∧ config p sample_fs = Ok c
    ∧ Path.is_absolute (root c) = true
    ∧ length (input (rollupOptions (build c))) = 2%nat.
Proof.
  pose (R := node_process None).
  assert (Hroot :
    match @plugin R sample_fs None with
    | Ok p =>
        match config p sample_fs with
        | Ok c => Some (root c)
        | Err _ => None
        end
    | Err _ => None
    end = Some "/app/src/js/entry") by (vm_compute; reflexivity).
  destruct (@plugin R sample_fs None) as [p|] eqn:Ep; [|done].
  destruct (config p sample_fs) as [c|] eqn:Ec; [|done].
  injection Hroot as Hroot.
  exists p, c. split; [done|]. split; [done|].
  destruct (@plugin_root_and_inputs R sample_fs sample_fs None p c Ep Ec)
    as (Habs & es & Hes & Hlen & _).
  split; [done|]. rewrite Hlen, Hroot in *.
  vm_compute in Hes. by injection Hes as <-.
Defined.
(** ** More on aliases *)


Example aliases_null_and_numbers :
  @resolveAliases (node_process None) (Some JNull) = Err TypeError
  ∧ @resolveAliases (node_process None) (Some (JArr [JNum 7; JNull]))
    = Ok [{| find := "@7"; replacement := "/app/src/7" |};
          {| find := "@null"; replacement := "/app/src/null" |}].
Proof. split; reflexivity. Qed.

(** ** More on the development server *)

(** X10. Once [origin] is truthy nothing else in the configuration can
    influence [configureServer]: two configurations with the same origin
    give the same outcome, whatever their [host], [port] and [https]. *)
Theorem origin_decides_alone `{Runtime} (cfg1 cfg2 : object) :
  truthy (Get cfg1 "origin") = true →
  Get cfg2 "origin" = Get cfg1 "origin" →
  configureServer cfg1 = configureServer cfg2.
Proof.
  intros Ht E. unfold configureServer, resolved_origin.
  by rewrite E, Ht.
Qed.

Lemma origin_decides_alone_witness :
  @configureServer (node_process None)
    {| own := <["origin" := JStr "http://localhost:5173"]> (own defaults);
       proto := None |}
  = @configureServer (node_process None)
      {| own := <["origin" := JStr "http://localhost:5173"]>
                (<["https" := JBool true]>
                (<["host" := JStr "example.org"]>
                (<["port" := JNum 443]> ∅)));
         proto := None |}.
Proof.
  apply (@origin_decides_alone (node_process None)); reflexivity.
Defined.



(** ** Errors of the hooks *)

Section HookErrors.
Context `{Runtime}.



End HookErrors.



(** X13. When [outDir] is not a string both hooks throw a [TypeError],
    and they do so without looking at the file system. *)
Theorem outDir_must_be_string `{Runtime} (cfg : object) (r : string) (fs : node) :
  (∀ s, Get cfg "outDir" ≠ Some (JStr s)) →
  config_hook cfg r fs = Err TypeError
  ∧ buildStart_hook cfg fs = Err TypeError.
Proof.
  intros Ho.
  assert (Hv : validateString (Get cfg "outDir") = Err TypeError).
  { destruct (Get cfg "outDir") as [[| | |s| |]|]; try done. by destruct (Ho s). }
  split.
  - unfold config_hook.
    destruct (resolveAliases (Get cfg "aliases")) as [alias|e1] eqn:Ea.
    2:{ assert (e1 = TypeError) as ->; [|done].
        unfold resolveAliases in Ea. repeat case_match; congruence. }
    simpl. destruct (configureServer cfg) as [srv|e2] eqn:Es.
    2:{ assert (e2 = TypeError) as ->; [|done].
        unfold configureServer in Es. repeat case_match; congruence. }
    simpl. by rewrite Hv.
  - unfold buildStart_hook. by rewrite Hv.
Qed.

Lemma outDir_must_be_string_witness :
  ∃ cfg,
    @loadConfig (node_process None) odd_fs "config/bad_outDir.json" = Ok cfg
    ∧ @config_hook (node_process None) cfg "/app/src/js/entry" odd_fs
      = Err TypeError
    ∧ @buildStart_hook (node_process None) cfg odd_fs = Err TypeError.
Proof.
  pose (R := node_process None).
  destruct (@loadConfig R odd_fs "config/bad_outDir.json") as [cfg|] eqn:E;
    [|by vm_compute in E].
  exists cfg. split; [done|].
  apply (@outDir_must_be_string R).
  apply (@loadConfig_inv R) in E as (text & v & Hr & Hp & ->).
  injection Hr as <-. injection Hp as <-. intros s. by vm_compute.
Defined.

(** ** More on cleaning before a build *)

Section CleanMore.
Context `{Runtime}.
Import Path PathFacts FsFacts.

Lemma buildStart_hook_clean (cfg : object) (o : string) (fs : node) :
  Get cfg "outDir" = Some (JStr o) →
  Forall (λ x, is_name x = true) (components (resolve cwd [o]))
  ∧ buildStart_hook cfg fs
    = clean (from_components (components (resolve cwd [o]))) dirsToClean fs.
Proof.
  intros Ho.
  destruct (resolve_canonical cwd [o] cwd_absolute) as [Hout Hres].
  split; [done|]. unfold buildStart_hook, LUCKY_ROOT. rewrite Ho. simpl.
  by rewrite <- Hres.
Qed.

Lemma buildStart_hook_ok_inv (cfg : object) (fs fs' : node) :
  buildStart_hook cfg fs = Ok fs' → ∃ o, Get cfg "outDir" = Some (JStr o).
Proof.
  unfold buildStart_hook.
  destruct (Get cfg "outDir") as [[| | |o| |]|]; try done. by exists o.
Qed.


Lemma child_filter_Some (es : list (string * node)) (s t : string) (c : node) :
  child (List.filter (λ e, negb (has_name s e)) es) t = Some c →
  child es t = Some c.
Proof.
  destruct (decide (s = t)) as [->|Hne].
  - by rewrite child_filter_same.
  - by rewrite child_filter_other.
Qed.

(** Removal creates nothing and rewrites no file. *)
Lemma lookup_remove_Some (p : list string) : ∀ q n x,
  lookup (remove p n) q = Some x →
  ∃ y, lookup n q = Some y ∧ ∀ c, x = File c → y = File c.
Proof.
  induction p as [|s rest IH]; intros q n x Hx.
  { exists x. by split. }
  destruct n as [c0|es]; [destruct rest; exists x; by split|].
  destruct rest as [|s' rest'].
  - destruct q as [|t q'].
    + simpl in Hx. injection Hx as <-. eexists. split; [done|]. by intros.
    + simpl in Hx. simpl.
      destruct (child (List.filter _ es) t) as [c|] eqn:Ec; [|done].
      apply child_filter_Some in Ec. rewrite Ec. exists x. by split.
  - rewrite remove_cons in Hx. destruct q as [|t q'].
    + simpl in Hx. injection Hx as <-. eexists. split; [done|]. by intros.
    + simpl in Hx. simpl. destruct (decide (s = t)) as [->|Hne].
      * rewrite child_alter_same in Hx.
        destruct (child es t) as [c|]; [|done]. simpl in Hx. by apply IH.
      * rewrite child_alter_other in Hx by done.
        destruct (child es t) as [c|]; [|done]. exists x. by split.
Qed.

Lemma lookup_removals_Some (out : list string) (dirs : list string) : ∀ fs q x,
  lookup (foldl (λ fs d, remove (out ++ [d]) fs) fs dirs) q = Some x →
  ∃ y, lookup fs q = Some y ∧ ∀ c, x = File c → y = File c.
Proof.
  induction dirs as [|d rest IH]; intros fs q x Hx.
  { exists x. by split. }
  simpl in Hx. apply IH in Hx as (y & Hy & Hxy).
  apply lookup_remove_Some in Hy as (z & Hz & Hyz).
  exists z. split; [done|]. intros c ->. by apply Hyz, Hxy.
Qed.

End CleanMore.



(** X15. The [buildStart] hook creates nothing and rewrites no file:
    whatever is found in the file system after a run was at the same place
    before it, and a file there has the content it had. *)
Theorem buildStart_only_removes `{Runtime} (cfg : object) (fs fs' : node) :
  buildStart_hook cfg fs = Ok fs' →
  ∀ q n,
    lookup fs' q = Some n →
    is_Some (lookup fs q)
    ∧ ∀ content, n = File content → lookup fs q = Some (File content).
Proof.
  intros E q n Hn.
  destruct (buildStart_hook_ok_inv cfg fs fs' E) as [o Ho].
  destruct (buildStart_hook_clean cfg o fs Ho) as [Hout Hc].
  rewrite Hc in E. apply clean_ok in E; [|done|apply dirsToClean_names].
  subst fs'. apply lookup_removals_Some in Hn as (y & Hy & Hxy).
  split; [by eexists|]. intros content ->. by rewrite Hy, (Hxy content).
Qed.

Lemma buildStart_only_removes_witness :
  ∃ fs',
    @buildStart_hook (node_process None) defaults sample_fs = Ok fs'
    ∧ lookup fs' ["app"; "config"; "broken.json"] = Some (File "{ host: ")
    ∧ lookup sample_fs ["app"; "config"; "broken.json"] = Some (File "{ host: ").
Proof.
  pose (R := node_process None).
  assert (Hl :
    match @buildStart_hook R defaults sample_fs with
    | Ok fs' => lookup fs' ["app"; "config"; "broken.json"]
    | Err _ => None
    end = Some (File "{ host: ")) by (vm_compute; reflexivity).
  destruct (@buildStart_hook R defaults sample_fs) as [fs'|] eqn:E; [|done].
  exists fs'. split; [done|]. split; [done|].
  by apply (@buildStart_only_removes R defaults sample_fs fs' E _ _ Hl).
Defined.

(** X16. Cleaning does not disturb the [config] hook: when the entry root
    exists and lies neither inside one of the five directories nor above
    the output directory, the hook returns after a successful cleaning what
    it returned before. *)
Theorem cleaning_keeps_config `{Runtime} (cfg : object) (outDir r : string)
    (fs fs' : node) :
  Get cfg "outDir" = Some (JStr outDir) →
  let out := Path.components (Path.resolve cwd [outDir]) in
  let loc := Path.components (Path.resolve cwd [r]) in
  buildStart_hook cfg fs = Ok fs' →
  is_Some (lookup fs loc) →
  ¬ loc `prefix_of` out →
  (∀ d, d ∈ dirsToClean → ¬ (out ++ [d]) `prefix_of` loc) →
  config_hook cfg r fs' = config_hook cfg r fs.
Proof.
  intros Ho out loc E Hsome Hup Hin. subst out loc.
  destruct (buildStart_hook_clean cfg outDir fs Ho) as [Hout Hc].
  rewrite Hc in E. apply clean_ok in E; [|done|apply dirsToClean_names].
  assert (Hl : lookup fs' (Path.components (Path.resolve cwd [r]))
               = lookup fs (Path.components (Path.resolve cwd [r])))
    by (subst fs'; by apply lookup_after_removals_other).
  unfold config_hook.
  rewrite (findEntryScripts_frame fs' fs r Hl); [done|]. by rewrite Hl.
Qed.

Lemma cleaning_keeps_config_witness :
  ∃ fs',
    @buildStart_hook (node_process None) defaults sample_fs = Ok fs'
    ∧ @config_hook (node_process None) defaults "/app/src/js/entry" fs'
      = @config_hook (node_process None) defaults "/app/src/js/entry" sample_fs.
Proof.
  pose (R := node_process None).
  assert (Hok : is_ok (@buildStart_hook R defaults sample_fs) = true)
    by reflexivity.
  destruct (@buildStart_hook R defaults sample_fs) as [fs'|] eqn:E; [|done].
  exists fs'. split; [done|].
  apply (@cleaning_keeps_config R defaults "public" "/app/src/js/entry"
           sample_fs fs' eq_refl E).
  - by eexists.
  - intros [k Hk]. by vm_compute in Hk.
  - intros d _ [k Hk]. by vm_compute in Hk.
Defined.

(** X17. The two hooks agree on the output directory: the directory the
    [config] hook reports as [build.outDir], an absolute path, is the one
    whose five entries a successful [buildStart] removes. The
    configuration asks the build tool not to empty that directory and to
    write a manifest. *)
Theorem hooks_share_outDir `{Runtime} (cfg : object) (r : string) (fs1 fs fs' : node)
    (c : UserConfig) :
  config_hook cfg r fs1 = Ok c →
  buildStart_hook cfg fs = Ok fs' →
  Path.is_absolute (outDir (build c)) = true
  ∧ (∀ d, d ∈ dirsToClean →
       lookup fs' (Path.components (outDir (build c)) ++ [d]) = None)
  ∧ emptyOutDir (build c) = false
  ∧ manifest (build c) = true.
Proof.
  intros (alias & srv & o & inp & _ & _ & Ho & _ & ->)%config_hook_ok E.
  destruct (buildStart_hook_clean cfg o fs Ho) as [Hout Hc].
  rewrite Hc in E. apply clean_ok in E; [|done|apply dirsToClean_names].
  simpl. unfold LUCKY_ROOT. split; [|split; [|done]].
  - destruct (PathFacts.resolve_canonical cwd [o] cwd_absolute) as [_ ->]. done.
  - intros d Hd. subst fs'. by apply lookup_after_removals_same.
Qed.

Lemma hooks_share_outDir_witness :
  ∃ c fs',
    @config_hook (node_process None) defaults "/app/src/js/entry" sample_fs = Ok c
    ∧ @buildStart_hook (node_process None) defaults sample_fs = Ok fs'
    ∧ outDir (build c) = "/app/public"
    ∧ lookup fs' ["app"; "public"; "css"] = None.
Proof.
  pose (R := node_process None).
  assert (Hok : is_ok (@buildStart_hook R defaults sample_fs) = true)
    by reflexivity.
  destruct (@buildStart_hook R defaults sample_fs) as [fs'|] eqn:E; [|done].
  destruct (@config_hook R defaults "/app/src/js/entry" sample_fs) as [c|] eqn:Ec;
    [|by vm_compute in Ec].
  exists c, fs'. split; [done|]. split; [done|].
  destruct (@hooks_share_outDir R _ _ _ _ _ c Ec E) as (_ & Hgone & _).
  apply (@config_hook_ok R) in Ec as (? & ? & o & ? & _ & _ & Ho & _ & ->).
  injection Ho as <-. split; [reflexivity|].
  apply (Hgone "css"). right; left.
Defined.
